(** * Envoy TLS context (source/common/ssl/context_impl.cc)

    A shallow embedding of [ContextImpl] and [ServerContextImpl]: ALPN list
    parsing, peer-certificate verification
    (subject alternative names, pinned certificate hash), certificate expiry
    queries, session-ticket key parsing and processing, and the session
    context digest.

    Conventions.
    - [std::string] is [string]; a [const char*] is the [string] holding the
      bytes before its terminating NUL ([c_str]).
    - [uint8_t] values and C [int]s are [Z]; narrowing conversions are written
      out ([to_uint8], [size_t_sub]).
    - [std::vector<T>] is [list T]; [v[i] = x] is [<[i:=x]> v].
    - A function that may throw [EnvoyException] returns a [Result].
    - BoringSSL and the file system are the operations of the [Library]
      class. *)

From Stdlib Require Import ZArith Ascii String.
From stdpp Require Import base list strings pretty gmap.

Local Open Scope Z_scope.

(** ** Exceptions *)

(** What a constructor can throw: an [EnvoyException] with its [what()]
    message, or the [std::out_of_range] of [vector::at]. *)
Inductive exception : Type :=
  | EnvoyException (what : string)
  | out_of_range.

Inductive Result (A : Type) : Type :=
  | Ok (a : A)
  | Throw (e : exception).

Arguments Ok {A} a.
Arguments Throw {A} e.

(** Sequencing: a thrown exception skips the rest. *)
Global Instance Result_bind : MBind Result := λ A B k m,
  match m with
  | Ok a => k a
  | Throw e => Throw e
  end.

Global Instance Result_ret : MRet Result := λ A a, Ok a.

(** A [for] loop over the indices in [l] whose body may throw. *)
Fixpoint for_each {S I : Type} (body : S → I → Result S) (st : S) (l : list I)
    : Result S :=
  match l with
  | [] => Ok st
  | i :: l' => st' ← body st i; for_each body st' l'
  end.

(** ** Machine integers, bytes and strings *)

Abbreviation uint8_t := Z.

(** Conversion of an integer to [uint8_t]. *)
Definition to_uint8 (z : Z) : uint8_t := z mod 256.

(** Conversion of an integer to [size_t] (64 bits). *)
Definition to_size_t (z : Z) : Z := z mod 2 ^ 64.

(** [a - b] on [size_t]: wraps around. *)
Definition size_t_sub (a b : nat) : Z := to_size_t (Z.of_nat a - Z.of_nat b).

Definition INT_MAX : Z := 2147483647.
Definition INT_MIN : Z := -2147483648.

(** A [char] stored into a [uint8_t]: the same eight bits. *)
Definition char_to_uint8 (c : ascii) : uint8_t := Z.of_N (N_of_ascii c).

Definition bytes_of_string (s : string) : list uint8_t :=
  char_to_uint8 <$> list_ascii_of_string s.

(** [s[i]]; at [i = s.size()] a [std::string] yields NUL. *)
Definition string_at (s : string) (i : nat) : ascii :=
  default zero (String.get i s).

(** The C string at the start of a buffer: the bytes before the first NUL. *)
Fixpoint c_str (data : string) : string :=
  match data with
  | EmptyString => EmptyString
  | String c rest => if Ascii.eqb c zero then EmptyString else String c (c_str rest)
  end.

(** [s.erase(std::remove(s.begin(), s.end(), ch), s.end())]. *)
Fixpoint erase_remove (ch : ascii) (s : string) : string :=
  match s with
  | EmptyString => EmptyString
  | String c rest =>
      if Ascii.eqb c ch then erase_remove ch rest
      else String c (erase_remove ch rest)
  end.

Definition string_empty (s : string) : bool :=
  match s with
  | EmptyString => true
  | String _ _ => false
  end.

Definition vector_empty {A : Type} (v : list A) : bool :=
  match v with
  | [] => true
  | _ :: _ => false
  end.

(** ** Certificates *)

(** The [type] tags of a [GENERAL_NAME] (openssl/x509v3.h). *)
Definition GEN_DNS : Z := 2.
Definition GEN_URI : Z := 6.

(** One subject-alternative-name entry: its type tag and the data of its
    [ASN1_STRING] (for [GEN_DNS] the [dNSName], for [GEN_URI] the
    [uniformResourceIdentifier]). *)
Record GENERAL_NAME : Type := {
  gn_type : Z;
  gn_data : string
}.

Definition ASN1_TIME : Type := string.

(** A parsed certificate. [x509_altnames] is what
    [X509_get_ext_d2i(cert, NID_subject_alt_name, ..)] returns: [None] when
    the certificate has no such extension. [x509_der] is the encoded
    certificate, the input of [X509_digest]. *)
Record X509 : Type := {
  x509_subject : string;
  x509_serialNumber : Z;
  x509_notAfter : ASN1_TIME;
  x509_altnames : option (list GENERAL_NAME);
  x509_der : list uint8_t
}.

(** ** BoringSSL, the file system and [Hex::decode] *)

Definition SHA256_DIGEST_LENGTH : nat := 32.
Definition SSL_TICKET_KEY_NAME_LEN : nat := 16.

Class Library : Type := {
  SSL_CTX_set_strict_cipher_list : string → bool;
  SSL_CTX_set1_curves_list : string → bool;
  (** [fopen] followed by [PEM_read_X509]; [None] when either fails. *)
  PEM_read_X509 : string → option X509;
  SSL_CTX_load_verify_locations : string → bool;
  SSL_CTX_use_certificate_chain_file : string → bool;
  SSL_CTX_use_PrivateKey_file : string → bool;
  (** The subject names of a client CA file; [None] for [nullptr]. *)
  SSL_load_client_CA_file : string → option (list string);
  (** [Hex::decode] (common/common/hex.h), defined outside this file: the
      bytes it returns, or the exception it throws. *)
  Hex_decode : string → Result (list uint8_t);
  SHA256 : list uint8_t → list uint8_t;
  SHA256_length : ∀ m, length (SHA256 m) = SHA256_DIGEST_LENGTH;
  (** [ASN1_TIME_diff(&days, &seconds, nullptr, t)]: from the current time to
      [t]; [None] when the call returns 0. [days] is a C [int]. *)
  ASN1_TIME_diff : ASN1_TIME → option (Z * Z);
  ASN1_TIME_diff_int : ∀ t days seconds,
    ASN1_TIME_diff t = Some (days, seconds) → INT_MIN ≤ days ≤ INT_MAX;
  (** Whether the initialisation succeeds, given the key (and the IV). *)
  EVP_EncryptInit_ex : list uint8_t → list uint8_t → bool;
  EVP_DecryptInit_ex : list uint8_t → list uint8_t → bool;
  HMAC_Init_ex : list uint8_t → bool
}.

(** [X509_digest(cert, EVP_sha256(), ..)]: SHA-256 of the encoded
    certificate. *)
Definition X509_digest `{Library} (cert : X509) : list uint8_t :=
  SHA256 (x509_der cert).

(** An [EVP_MD_CTX] of SHA-256 is the bytes absorbed so far. *)
Definition EVP_MD_CTX : Type := list uint8_t.
Definition EVP_DigestInit : EVP_MD_CTX := [].
Definition EVP_DigestUpdate (md : EVP_MD_CTX) (data : list uint8_t) : EVP_MD_CTX :=
  md ++ data.
Definition EVP_DigestFinal `{Library} (md : EVP_MD_CTX) : list uint8_t :=
  SHA256 md.

(** ** Configuration and context state *)

(** The accessors of [ContextConfig] and [ServerContextConfig]. *)
Module Config.

Record ContextConfig : Type := {
  cipherSuites : string;
  ecdhCurves : string;
  caCertFile : string;
  verifySubjectAltNameList : list string;
  verifyCertificateHash : string;
  certChainFile : string;
  privateKeyFile : string;
  alpnProtocols : string
}.

Record ServerContextConfig : Type := {
  base_config : ContextConfig;
  requireClientCertificate : bool;
  altAlpnProtocols : string;
  sessionTicketKeys : list (list uint8_t)
}.

End Config.

Abbreviation ContextConfig := Config.ContextConfig.
Abbreviation ServerContextConfig := Config.ServerContextConfig.

Definition SSL_VERIFY_NONE : Z := 0.
Definition SSL_VERIFY_PEER : Z := 1.
Definition SSL_VERIFY_FAIL_IF_NO_PEER_CERT : Z := 2.
Definition SSL_OP_NO_SSLv3 : Z := 0x02000000.
Definition SSL_OP_CIPHER_SERVER_PREFERENCE : Z := 0x00400000.

(** What has been set on the [SSL_CTX]. *)
Record SSL_CTX : Type := {
  ssl_verify_mode : Z;
  ssl_cert_verify_callback : bool;
  ssl_options : Z;
  ssl_client_CA_list : option (list string);
  ssl_alpn_select_cb : bool;
  ssl_tlsext_ticket_key_cb : bool;
  ssl_session_id_context : list uint8_t
}.

(** The counters of [SslStats] that verification increments. *)
Record SslStats : Type := {
  fail_verify_error_ : nat;
  fail_verify_san_ : nat;
  fail_verify_cert_hash_ : nat
}.

Record ContextImpl : Type := {
  ctx_ : SSL_CTX;
  ca_cert_ : option X509;
  ca_file_path_ : string;
  cert_chain_ : option X509;
  cert_chain_file_path_ : string;
  verify_subject_alt_name_list_ : list string;
  verify_certificate_hash_ : list uint8_t;
  parsed_alpn_protocols_ : list uint8_t
}.

(** [SessionTicketKey] (context_impl.h): three byte arrays. The constructor
    and [sessionTicketProcess] fix their sizes: the whole is 80 bytes, the
    name [SSL_TICKET_KEY_NAME_LEN] = 16, the AES key the 32 bytes of an
    AES-256 key, which leaves 32 for the HMAC key. *)
Record SessionTicketKey : Type := {
  name : list uint8_t;
  hmac_key : list uint8_t;
  aes_key : list uint8_t
}.

Record ServerContextImpl : Type := {
  base : ContextImpl;
  parsed_alt_alpn_protocols_ : list uint8_t;
  session_ticket_keys_ : list SessionTicketKey
}.

(** ** ContextImpl::parseAlpnProtocols *)

Definition invalid_alpn : exception :=
  EnvoyException "invalid ALPN protocol string".

(** One iteration of [for (size_t i = 0; i <= alpn_protocols.size(); i++)];
    the state is the local [start] and the vector [out]. *)
Definition parseAlpn_body (alpn_protocols : string) (st : nat * list uint8_t)
    (i : nat) : Result (nat * list uint8_t) :=
  let '(start, out) := st in
  if bool_decide (i = String.length alpn_protocols)
     || Ascii.eqb (string_at alpn_protocols i) ","
  then
    if size_t_sub i start >? 255 then Throw invalid_alpn
    else Ok ((i + 1)%nat, <[start := to_uint8 (size_t_sub i start)]> out)
  else
    Ok (start, <[(i + 1)%nat := char_to_uint8 (string_at alpn_protocols i)]> out).

Definition parseAlpnProtocols (alpn_protocols : string) : Result (list uint8_t) :=
  if string_empty alpn_protocols then Ok []
  else if Z.of_nat (String.length alpn_protocols) >=? 65535 then
    Throw invalid_alpn
  else
    let n := String.length alpn_protocols in
    '(_, out) ← for_each (parseAlpn_body alpn_protocols)
                  (0%nat, replicate (n + 1) 0) (seq 0 (n + 1));
    Ok out.

(** *** The ALPN wire format of the specification *)

Module Wire.

(** The comma-separated protocol names of the configuration string. *)
Fixpoint split_comma (s : string) : list string :=
  match s with
  | EmptyString => [EmptyString]
  | String c s' =>
      if Ascii.eqb c "," then EmptyString :: split_comma s'
      else match split_comma s' with
           | h :: t => String c h :: t
           | [] => [String c EmptyString]
           end
  end.

(** One wire entry: a one-byte length, then the name. *)
Definition encode_entry (protocol : string) : list uint8_t :=
  Z.of_nat (String.length protocol) :: bytes_of_string protocol.

Definition encode_names (protocols : list string) : list uint8_t :=
  concat (encode_entry <$> protocols).

(** A protocol name fits its one-byte length. *)
Definition name_fits (protocol : string) : bool :=
  bool_decide (String.length protocol ≤ 255)%nat.

Fixpoint comma_free (s : string) : bool :=
  match s with
  | EmptyString => true
  | String c s' => negb (Ascii.eqb c ",") && comma_free s'
  end.

(** Reading a wire string back as length-prefixed entries, each returned
    with its length byte; [None] when an entry runs past the end.  An entry
    consumes at least its length byte, so [length wire] rounds suffice. *)
Fixpoint decode_entries (rounds : nat) (wire : list uint8_t)
    : option (list (uint8_t * list uint8_t)) :=
  match wire with
  | [] => Some []
  | len :: rest =>
      match rounds with
      | O => None
      | S rounds' =>
          if bool_decide (Z.to_nat len ≤ length rest)%nat then
            tl ← decode_entries rounds' (drop (Z.to_nat len) rest);
            Some ((len, take (Z.to_nat len) rest) :: tl)
          else None
      end
  end.

Definition decode (wire : list uint8_t) : option (list (uint8_t * list uint8_t)) :=
  decode_entries (length wire) wire.

End Wire.

(** ** Peer verification *)

(** [ContextImpl::dNSNameMatch(const std::string& dNSName, const char* pattern)].
    The two [size_t] subtractions are guarded: [pattern_len > 1] before
    [pattern_len - 1], and [dNSName.length() > pattern_len - 1] before
    [dNSName.length() - pattern_len + 1], so neither wraps and the
    subtraction of [nat] is the one of [size_t] ([size_t_sub_guarded]).
    [dNSName.compare(off, n, s) == 0] holds when the [n] characters of
    [dNSName] from [off] equal the C string [s]. *)
Definition dNSNameMatch (dNSName pattern : string) : bool :=
  if String.eqb dNSName pattern then true
  else
    let pattern_len := String.length pattern in
    if bool_decide (1 < pattern_len)%nat
       && Ascii.eqb (string_at pattern 0) "*"
       && Ascii.eqb (string_at pattern 1) "."
    then
      if bool_decide (pattern_len - 1 < String.length dNSName)%nat then
        let off := (String.length dNSName - pattern_len + 1)%nat in
        String.eqb (substring off (pattern_len - 1) dNSName)
                   (substring 1 (pattern_len - 1) pattern)
      else false
    else false.

(** The inner [for (auto& config_san : subject_alt_names)] loops. *)
Definition any_config_san (matches : string → bool) (subject_alt_names : list string)
    : bool :=
  existsb matches subject_alt_names.

(** What one entry of the certificate contributes to [verified]. *)
Definition altname_verified (subject_alt_names : list string) (altname : GENERAL_NAME)
    : bool :=
  if gn_type altname =? GEN_DNS then
    let dns_name := c_str (gn_data altname) in
    any_config_san (λ config_san, dNSNameMatch config_san dns_name) subject_alt_names
  else if gn_type altname =? GEN_URI then
    let crt_san := c_str (gn_data altname) in
    any_config_san (λ config_san, String.eqb config_san crt_san) subject_alt_names
  else false.

(** [for (int i = 0; i < n && !verified; i++)]. *)
Fixpoint altnames_loop (subject_alt_names : list string) (altnames : list GENERAL_NAME)
    (verified : bool) : bool :=
  match altnames with
  | [] => verified
  | altname :: rest =>
      if verified then verified
      else altnames_loop subject_alt_names rest
             (altname_verified subject_alt_names altname)
  end.

Definition verifySubjectAltName (cert : X509) (subject_alt_names : list string) : bool :=
  let verified := false in
  match x509_altnames cert with
  | Some altnames => altnames_loop subject_alt_names altnames verified
  | None => verified
  end.

Section WithLibrary.
Context `{Library}.

(** [computed_hash == expected_hash] on [std::vector<uint8_t>]. The
    [RELEASE_ASSERT] on the digest length holds by [SHA256_length]. *)
Definition verifyCertificateHash (cert : X509) (expected_hash : list uint8_t) : bool :=
  let computed_hash := X509_digest cert in
  bool_decide (computed_hash = expected_hash).

Definition inc_fail_verify_error (stats : SslStats) : SslStats :=
  {| fail_verify_error_ := S (fail_verify_error_ stats);
     fail_verify_san_ := fail_verify_san_ stats;
     fail_verify_cert_hash_ := fail_verify_cert_hash_ stats |}.

Definition inc_fail_verify_san (stats : SslStats) : SslStats :=
  {| fail_verify_error_ := fail_verify_error_ stats;
     fail_verify_san_ := S (fail_verify_san_ stats);
     fail_verify_cert_hash_ := fail_verify_cert_hash_ stats |}.

Definition inc_fail_verify_cert_hash (stats : SslStats) : SslStats :=
  {| fail_verify_error_ := fail_verify_error_ stats;
     fail_verify_san_ := fail_verify_san_ stats;
     fail_verify_cert_hash_ := S (fail_verify_cert_hash_ stats) |}.

(** [ContextImpl::verifyCertificate]: the returned [int] and the counters
    [stats_] afterwards. *)
Definition verifyCertificate (impl : ContextImpl) (cert : X509) (stats_ : SslStats)
    : Z * SslStats :=
  if negb (vector_empty (verify_subject_alt_name_list_ impl))
     && negb (verifySubjectAltName cert (verify_subject_alt_name_list_ impl))
  then (0, inc_fail_verify_san stats_)
  else if negb (vector_empty (verify_certificate_hash_ impl))
          && negb (verifyCertificateHash cert (verify_certificate_hash_ impl))
  then (0, inc_fail_verify_cert_hash stats_)
  else (1, stats_).

(** [ContextImpl::verifyCallback]; [ret] is what [X509_verify_cert] returned
    for the chain and [cert] the peer certificate. *)
Definition verifyCallback (impl : ContextImpl) (ret : Z) (cert : X509)
    (stats_ : SslStats) : Z * SslStats :=
  if ret <=? 0 then (ret, inc_fail_verify_error stats_)
  else verifyCertificate impl cert stats_.

(** ** Certificate expiry *)

(** [cert] is [None] for [nullptr]. *)
Definition getDaysUntilExpiration (cert : option X509) : Z :=
  match cert with
  | None => INT_MAX
  | Some c =>
      match ASN1_TIME_diff (x509_notAfter c) with
      | Some (days, seconds) => days
      | None => 0
      end
  end.

(** The result is a [size_t]. *)
Definition daysUntilFirstCertExpires (impl : ContextImpl) : Z :=
  let daysUntilExpiration := getDaysUntilExpiration (ca_cert_ impl) in
  let daysUntilExpiration :=
    Z.min (getDaysUntilExpiration (cert_chain_ impl)) daysUntilExpiration in
  if daysUntilExpiration <? 0 then 0
  else to_size_t daysUntilExpiration.

(** ** Construction *)

Definition loadCert (cert_file : string) : Result X509 :=
  match PEM_read_X509 cert_file with
  | Some cert => Ok cert
  | None =>
      Throw (EnvoyException ("Failed to load certificate '" +:+ c_str cert_file +:+ "'"))
  end.

Definition SSL_CTX_new : SSL_CTX :=
  {| ssl_verify_mode := SSL_VERIFY_NONE;
     ssl_cert_verify_callback := false;
     ssl_options := 0;
     ssl_client_CA_list := None;
     ssl_alpn_select_cb := false;
     ssl_tlsext_ticket_key_cb := false;
     ssl_session_id_context := [] |}.

(** [ContextImpl::ContextImpl]. *)
Definition ContextImpl_ctor (config : ContextConfig) : Result ContextImpl :=
  if negb (SSL_CTX_set_strict_cipher_list (Config.cipherSuites config)) then
    Throw (EnvoyException
             ("Failed to initialize cipher suites " +:+ Config.cipherSuites config))
  else if negb (SSL_CTX_set1_curves_list (Config.ecdhCurves config)) then
    Throw (EnvoyException
             ("Failed to initialize ECDH curves " +:+ Config.ecdhCurves config))
  else
    let verify_mode := SSL_VERIFY_NONE in
    '(ca_cert, ca_file_path, verify_mode) ←
      (if negb (string_empty (Config.caCertFile config)) then
         ca_cert ← loadCert (Config.caCertFile config);
         if negb (SSL_CTX_load_verify_locations (Config.caCertFile config)) then
           Throw (EnvoyException
                    ("Failed to load verify locations file " +:+ Config.caCertFile config))
         else Ok (Some ca_cert, Config.caCertFile config, SSL_VERIFY_PEER)
       else Ok (None, EmptyString, verify_mode));
    let '(verify_subject_alt_name_list, verify_mode) :=
      if negb (vector_empty (Config.verifySubjectAltNameList config)) then
        (Config.verifySubjectAltNameList config,
         Z.lor SSL_VERIFY_PEER SSL_VERIFY_FAIL_IF_NO_PEER_CERT)
      else ([], verify_mode) in
    '(verify_certificate_hash, verify_mode) ←
      (if negb (string_empty (Config.verifyCertificateHash config)) then
         let hash := erase_remove ":" (Config.verifyCertificateHash config) in
         verify_certificate_hash ← Hex_decode hash;
         Ok (verify_certificate_hash,
             Z.lor SSL_VERIFY_PEER SSL_VERIFY_FAIL_IF_NO_PEER_CERT)
       else Ok ([], verify_mode));
    let '(ssl_verify, ssl_callback) :=
      if negb (verify_mode =? SSL_VERIFY_NONE) then (verify_mode, true)
      else (ssl_verify_mode SSL_CTX_new, false) in
    '(cert_chain, cert_chain_file_path) ←
      (if negb (string_empty (Config.certChainFile config)) then
         cert_chain ← loadCert (Config.certChainFile config);
         if negb (SSL_CTX_use_certificate_chain_file (Config.certChainFile config)) then
           Throw (EnvoyException
                    ("Failed to load certificate chain file " +:+ Config.certChainFile config))
         else if negb (SSL_CTX_use_PrivateKey_file (Config.privateKeyFile config)) then
           Throw (EnvoyException
                    ("Failed to load private key file " +:+ Config.privateKeyFile config))
         else Ok (Some cert_chain, Config.certChainFile config)
       else Ok (None, EmptyString));
    parsed_alpn_protocols ← parseAlpnProtocols (Config.alpnProtocols config);
    Ok {| ctx_ :=
            {| ssl_verify_mode := ssl_verify;
               ssl_cert_verify_callback := ssl_callback;
               ssl_options := Z.lor SSL_OP_NO_SSLv3 SSL_OP_CIPHER_SERVER_PREFERENCE;
               ssl_client_CA_list := None;
               ssl_alpn_select_cb := false;
               ssl_tlsext_ticket_key_cb := false;
               ssl_session_id_context := [] |};
          ca_cert_ := ca_cert;
          ca_file_path_ := ca_file_path;
          cert_chain_ := cert_chain;
          cert_chain_file_path_ := cert_chain_file_path;
          verify_subject_alt_name_list_ := verify_subject_alt_name_list;
          verify_certificate_hash_ := verify_certificate_hash;
          parsed_alpn_protocols_ := parsed_alpn_protocols |}.

(** *** Session ticket keys *)

Definition sizeof_SessionTicketKey : nat := 80.
Definition hmac_key_size : nat := 32.
Definition aes_key_size : nat := 32.

(** An element made by [session_ticket_keys_.resize(..)]. *)
Definition SessionTicketKey_zero : SessionTicketKey :=
  {| name := replicate SSL_TICKET_KEY_NAME_LEN 0;
     hmac_key := replicate hmac_key_size 0;
     aes_key := replicate aes_key_size 0 |}.

Definition ticket_key_length_error (i len : nat) : exception :=
  EnvoyException
    ("Incorrect TLS session ticket key length.  Index " +:+ pretty i
     +:+ ", length " +:+ pretty len
     +:+ ", expected length " +:+ pretty sizeof_SessionTicketKey +:+ ".").

(** The three [std::copy_n] out of [src_key]. *)
Definition copy_SessionTicketKey (src_key : list uint8_t) : SessionTicketKey :=
  let dst_name := take SSL_TICKET_KEY_NAME_LEN src_key in
  let pos := SSL_TICKET_KEY_NAME_LEN in
  let dst_hmac_key := take hmac_key_size (drop pos src_key) in
  let pos := (pos + hmac_key_size)%nat in
  let dst_aes_key := take aes_key_size (drop pos src_key) in
  {| name := dst_name; hmac_key := dst_hmac_key; aes_key := dst_aes_key |}.

(** One iteration of the loop over [config.sessionTicketKeys()]; both
    vectors are read with [at(i)], and [i] stays below their size. *)
Definition sessionTicketKeys_body (sessionTicketKeys : list (list uint8_t))
    (session_ticket_keys : list SessionTicketKey) (i : nat)
    : Result (list SessionTicketKey) :=
  match sessionTicketKeys !! i, session_ticket_keys !! i with
  | Some src_key, Some _ =>
      if bool_decide (length src_key ≠ sizeof_SessionTicketKey) then
        Throw (ticket_key_length_error i (length src_key))
      else Ok (<[i := copy_SessionTicketKey src_key]> session_ticket_keys)
  | _, _ => Throw out_of_range
  end.

(** The session-ticket part of [ServerContextImpl::ServerContextImpl]: the
    keys, and whether the ticket callback is installed. *)
Definition parseSessionTicketKeys (sessionTicketKeys : list (list uint8_t))
    : Result (list SessionTicketKey * bool) :=
  if negb (vector_empty sessionTicketKeys) then
    let n := length sessionTicketKeys in
    session_ticket_keys ← for_each (sessionTicketKeys_body sessionTicketKeys)
                            (replicate n SessionTicketKey_zero) (seq 0 n);
    Ok (session_ticket_keys, true)
  else Ok ([], false).

(** *** The session context *)

(** The hash of the settings that decide whether a client is accepted. *)
Definition session_context (impl : ContextImpl) : list uint8_t :=
  let md := EVP_DigestInit in
  let initial_context := "envoy" in
  let md := EVP_DigestUpdate md (bytes_of_string initial_context) in
  let md :=
    match ca_cert_ impl with
    | Some ca_cert =>
        let session_context_buf := X509_digest ca_cert in
        let md := EVP_DigestUpdate md session_context_buf in
        let md := fold_left (λ md name, EVP_DigestUpdate md (bytes_of_string name))
                    (verify_subject_alt_name_list_ impl) md in
        EVP_DigestUpdate md (verify_certificate_hash_ impl)
    | None => md
    end in
  EVP_DigestFinal md.

(** [ServerContextImpl::ServerContextImpl]. *)
Definition ServerContextImpl_ctor (config : ServerContextConfig)
    : Result ServerContextImpl :=
  impl ← ContextImpl_ctor (Config.base_config config);
  let caCertFile := Config.caCertFile (Config.base_config config) in
  '(client_CA_list, verify_mode) ←
    (if negb (string_empty caCertFile) then
       match SSL_load_client_CA_file caCertFile with
       | None =>
           Throw (EnvoyException ("Failed to load client CA file " +:+ caCertFile))
       | Some list =>
           Ok (Some list,
               if Config.requireClientCertificate config
               then Z.lor SSL_VERIFY_PEER SSL_VERIFY_FAIL_IF_NO_PEER_CERT
               else ssl_verify_mode (ctx_ impl))
       end
     else Ok (None, ssl_verify_mode (ctx_ impl)));
  parsed_alt_alpn_protocols ← parseAlpnProtocols (Config.altAlpnProtocols config);
  let alpn_select_cb := negb (vector_empty (parsed_alpn_protocols_ impl)) in
  '(session_ticket_keys, ticket_key_cb) ←
    parseSessionTicketKeys (Config.sessionTicketKeys config);
  Ok {| base :=
          {| ctx_ :=
               {| ssl_verify_mode := verify_mode;
                  ssl_cert_verify_callback := ssl_cert_verify_callback (ctx_ impl);
                  ssl_options := ssl_options (ctx_ impl);
                  ssl_client_CA_list := client_CA_list;
                  ssl_alpn_select_cb := alpn_select_cb;
                  ssl_tlsext_ticket_key_cb := ticket_key_cb;
                  ssl_session_id_context := session_context impl |};
             ca_cert_ := ca_cert_ impl;
             ca_file_path_ := ca_file_path_ impl;
             cert_chain_ := cert_chain_ impl;
             cert_chain_file_path_ := cert_chain_file_path_ impl;
             verify_subject_alt_name_list_ := verify_subject_alt_name_list_ impl;
             verify_certificate_hash_ := verify_certificate_hash_ impl;
             parsed_alpn_protocols_ := parsed_alpn_protocols_ impl |};
        parsed_alt_alpn_protocols_ := parsed_alt_alpn_protocols;
        session_ticket_keys_ := session_ticket_keys |}.

(** ** ServerContextImpl::sessionTicketProcess *)

Record EVP_CIPHER_CTX : Type := {
  cipher_encrypt : bool;
  cipher_key : list uint8_t;
  cipher_iv : list uint8_t
}.

(** The buffers and contexts the TLS library hands to the callback: the
    ticket's [key_name] and [iv], and the cipher and HMAC contexts ([None]
    while not initialised, else the key material they were set up with). *)
Record TicketArgs : Type := {
  key_name : list uint8_t;
  iv : list uint8_t;
  ctx : option EVP_CIPHER_CTX;
  hmac_ctx : option (list uint8_t)
}.

(** [std::equal(key.name.begin(), key.name.end(), key_name)]. *)
Definition name_equal (key : SessionTicketKey) (key_name : list uint8_t) : bool :=
  bool_decide (name key = take (length (name key)) key_name).

(** What the decrypt loop does with the key whose name matched. *)
Definition decrypt_with (key : SessionTicketKey) (is_enc_key : bool)
    (args : TicketArgs) : Z * TicketArgs :=
  if negb (HMAC_Init_ex (hmac_key key)) then (-1, args)
  else
    let args := {| key_name := key_name args; iv := iv args;
                   ctx := ctx args; hmac_ctx := Some (hmac_key key) |} in
    if negb (EVP_DecryptInit_ex (aes_key key) (iv args)) then (-1, args)
    else
      (if is_enc_key then 1 else 2,
       {| key_name := key_name args; iv := iv args;
          ctx := Some {| cipher_encrypt := false; cipher_key := aes_key key;
                         cipher_iv := iv args |};
          hmac_ctx := hmac_ctx args |}).

(** The decrypt loop over [session_ticket_keys_]; [is_enc_key] is true for
    the first key only. *)
Fixpoint decrypt_loop (keys : list SessionTicketKey) (is_enc_key : bool)
    (args : TicketArgs) : Z * TicketArgs :=
  match keys with
  | [] => (0, args)
  | key :: rest =>
      if name_equal key (key_name args) then decrypt_with key is_enc_key args
      else decrypt_loop rest false args
  end.

(** [rand] is what [RAND_bytes] delivers for the IV. The two
    [RELEASE_ASSERT]s compare the size of the 32-byte [aes_key] array with
    the key length of AES-256 and never fire. *)
Definition sessionTicketProcess (impl : ServerContextImpl) (args : TicketArgs)
    (rand : list uint8_t) (encrypt : Z) : Z * TicketArgs :=
  if encrypt =? 1 then
    match session_ticket_keys_ impl with
    | [] => (-1, args)
    | key :: _ =>
        let args := {| key_name := take SSL_TICKET_KEY_NAME_LEN (name key);
                       iv := rand; ctx := ctx args; hmac_ctx := hmac_ctx args |} in
        if negb (EVP_EncryptInit_ex (aes_key key) (iv args)) then (-1, args)
        else
          let args := {| key_name := key_name args; iv := iv args;
                         ctx := Some {| cipher_encrypt := true;
                                        cipher_key := aes_key key;
                                        cipher_iv := iv args |};
                         hmac_ctx := hmac_ctx args |} in
          if negb (HMAC_Init_ex (hmac_key key)) then (-1, args)
          else
            (1, {| key_name := key_name args; iv := iv args; ctx := ctx args;
                   hmac_ctx := Some (hmac_key key) |})
    end
  else decrypt_loop (session_ticket_keys_ impl) true args.

End WithLibrary.

(** ** ContextImpl::logHandshake *)

(** What [logHandshake] reads off a connection: [SSL_session_reused],
    [SSL_get_cipher_name] and [SSL_get_peer_certificate] ([None] for
    [nullptr]). *)
Record SSL : Type := {
  ssl_session_reused : bool;
  ssl_cipher_name : string;
  ssl_peer_certificate : option X509
}.

(** The scope of a context: its counters by name. A counter that was never
    incremented reads 0. [scope.counter(name).inc()]: *)
Definition counter_inc (name : string) (scope : gmap string nat) : gmap string nat :=
  <[name := S (default 0%nat (scope !! name))]> scope.

(** The counters of [SslStats] that [logHandshake] increments. A field is a
    reference to a counter of the scope, here the counter's name. *)
Record HandshakeStats : Type := {
  handshake_ : string;
  session_reused_ : string;
  no_certificate_ : string
}.

(** [ContextImpl::generateStats], by which the constructor sets [stats_]
    from the scope it keeps as [scope_]: [POOL_COUNTER_PREFIX(store, prefix)]
    (common/stats/stats_macros.h) makes the field [NAME_] the counter
    [store.counter(prefix + "NAME")]. *)
Definition generateStats : HandshakeStats :=
  let prefix := "ssl." in
  {| handshake_ := prefix +:+ "handshake";
     session_reused_ := prefix +:+ "session_reused";
     no_certificate_ := prefix +:+ "no_certificate" |}.

(** [ContextImpl::logHandshake] on the counters of [scope_], among them
    those of [stats_]. *)
Definition logHandshake (ssl : SSL) (scope_ : gmap string nat) : gmap string nat :=
  let stats_ := generateStats in
  let scope_ := counter_inc (handshake_ stats_) scope_ in
  let scope_ :=
    if ssl_session_reused ssl then counter_inc (session_reused_ stats_) scope_
    else scope_ in
  let cipher := ssl_cipher_name ssl in
  let scope_ := counter_inc ("ssl.ciphers." +:+ cipher) scope_ in
  match ssl_peer_certificate ssl with
  | None => counter_inc (no_certificate_ stats_) scope_
  | Some _ => scope_
  end.

(** ** ServerContextImpl::alpnSelectCallback *)

Definition OPENSSL_NPN_NEGOTIATED : Z := 1.
Definition SSL_TLSEXT_ERR_OK : Z := 0.
Definition SSL_TLSEXT_ERR_NOACK : Z := 3.

(** [SSL_select_next_proto(out, outlen, server, server_len, client,
    client_len)]: the status it returns and the protocol it leaves in
    [out]. *)
Class Negotiation : Type := {
  SSL_select_next_proto : list uint8_t → list uint8_t → Z * list uint8_t
}.

(** [alt_alpn] is what [runtime_.snapshot().featureEnabled("ssl.alt_alpn", 0)]
    answers for this call; [in_] is the list the client offered. The result
    is the returned [int] and [out]. *)
Definition alpnSelectCallback `{Negotiation} (impl : ServerContextImpl)
    (alt_alpn : bool) (in_ : list uint8_t) : Z * list uint8_t :=
  let alpn_data := parsed_alpn_protocols_ (base impl) in
  let alpn_data :=
    if negb (vector_empty (parsed_alt_alpn_protocols_ impl)) && alt_alpn
    then parsed_alt_alpn_protocols_ impl
    else alpn_data in
  let '(rc, out) := SSL_select_next_proto alpn_data in_ in
  if negb (rc =? OPENSSL_NPN_NEGOTIATED) then (SSL_TLSEXT_ERR_NOACK, out)
  else (SSL_TLSEXT_ERR_OK, out).

(** ** Certificate information *)

(** [BN_bn2hex] of the serial number; [None] for [nullptr]. *)
Class Bignum : Type := {
  BN_bn2hex : Z → option string
}.

Definition getSerialNumber `{Bignum} (cert : X509) : string :=
  match BN_bn2hex (x509_serialNumber cert) with
  | Some char_serial_number => char_serial_number
  | None => EmptyString
  end.

(** The text both information functions format. *)
Definition certificate_information `{Library} `{Bignum} (path : string) (cert : X509)
    : string :=
  "Certificate Path: " +:+ path +:+ ", Serial Number: " +:+ getSerialNumber cert
  +:+ ", Days until Expiration: " +:+ pretty (getDaysUntilExpiration (Some cert)).

Definition getCaCertInformation `{Library} `{Bignum} (impl : ContextImpl) : string :=
  match ca_cert_ impl with
  | None => EmptyString
  | Some ca_cert => certificate_information (ca_file_path_ impl) ca_cert
  end.

Definition getCertChainInformation `{Library} `{Bignum} (impl : ContextImpl) : string :=
  match cert_chain_ impl with
  | None => EmptyString
  | Some cert_chain => certificate_information (cert_chain_file_path_ impl) cert_chain
  end.

(** ** Reading the ALPN wire format back *)

Module Unwire.

(** The protocol names joined with commas, the inverse of
    [Wire.split_comma]. *)
Fixpoint join_comma (protocols : list string) : string :=
  match protocols with
  | [] => EmptyString
  | [protocol] => protocol
  | protocol :: rest => protocol +:+ "," +:+ join_comma rest
  end.

Definition uint8_to_char (b : uint8_t) : ascii := ascii_of_N (Z.to_N b).

Definition string_of_bytes (bs : list uint8_t) : string :=
  string_of_list_ascii (uint8_to_char <$> bs).

(** The configuration string an encoded list stands for. *)
Definition names_of_wire (wire : list uint8_t) : option string :=
  entries ← Wire.decode wire;
  Some (join_comma ((λ entry, string_of_bytes entry.2) <$> entries)).

End Unwire.

(** ** A library instance for running the model

    A small file system with three certificates, a stand-in digest of the
    right length (the message, cut or zero-padded to 32 bytes) and a hex
    decoder. [init_ok] tells whether cipher and HMAC initialisation
    succeed. *)

Module Sample.

Definition dns (s : string) : GENERAL_NAME := {| gn_type := GEN_DNS; gn_data := s |}.
Definition uri (s : string) : GENERAL_NAME := {| gn_type := GEN_URI; gn_data := s |}.
(** An [iPAddress] entry ([GEN_IPADD]). *)
Definition ipadd (s : string) : GENERAL_NAME := {| gn_type := 7; gn_data := s |}.

Definition cert_with (altnames : option (list GENERAL_NAME)) : X509 :=
  {| x509_subject := "CN=peer";
     x509_serialNumber := 4096;
     x509_notAfter := "20991231235959Z";
     x509_altnames := altnames;
     x509_der := [48; 130; 3; 10] |}.

Definition ca_cert : X509 :=
  {| x509_subject := "CN=Test CA";
     x509_serialNumber := 1;
     x509_notAfter := "20991231235959Z";
     x509_altnames := None;
     x509_der := [48; 130; 1; 1] |}.

Definition expired_cert : X509 :=
  {| x509_subject := "CN=old";
     x509_serialNumber := 2;
     x509_notAfter := "20200101000000Z";
     x509_altnames := None;
     x509_der := [48; 130; 2; 2] |}.

Definition files : list (string * X509) :=
  [("ca.pem", ca_cert); ("chain.pem", cert_with (Some [dns "server.example.com"]));
   ("old.pem", expired_cert)].

Definition read_file (path : string) : option X509 :=
  snd <$> List.find (λ f, String.eqb (fst f) path) files.

Definition digest (m : list uint8_t) : list uint8_t :=
  take SHA256_DIGEST_LENGTH (m ++ replicate SHA256_DIGEST_LENGTH 0).

Definition hex_digit (c : ascii) : option Z :=
  let n := Z.of_N (N_of_ascii c) in
  if (48 <=? n) && (n <=? 57) then Some (n - 48)
  else if (97 <=? n) && (n <=? 102) then Some (n - 87)
  else if (65 <=? n) && (n <=? 70) then Some (n - 55)
  else None.

Fixpoint hex_pairs (s : string) : option (list uint8_t) :=
  match s with
  | EmptyString => Some []
  | String hi (String lo rest) =>
      h ← hex_digit hi; l ← hex_digit lo; tl ← hex_pairs rest;
      Some (16 * h + l :: tl)
  | String _ EmptyString => None
  end.

(** Throws for a string that is empty, of odd length or not hexadecimal. *)
Definition hex_decode (s : string) : Result (list uint8_t) :=
  match hex_pairs s with
  | Some (b :: bs) => Ok (b :: bs)
  | _ => Throw (EnvoyException ("invalid hex string '" +:+ s +:+ "'"))
  end.

Definition time_diff (t : ASN1_TIME) : option (Z * Z) :=
  if String.eqb t "20991231235959Z" then Some (365, 0)
  else if String.eqb t "20200101000000Z" then Some (-5, -60)
  else None.

Definition digest_length m : length (digest m) = SHA256_DIGEST_LENGTH.
Proof.
  unfold digest. rewrite length_take, length_app, length_replicate. lia.
Defined.

Definition time_diff_int t days seconds :
  time_diff t = Some (days, seconds) → INT_MIN ≤ days ≤ INT_MAX.
Proof.
  unfold time_diff, INT_MIN, INT_MAX.
  repeat case_match; intros [= <- <-]; lia.
Defined.

Definition library (init_ok : bool) : Library :=
  {| SSL_CTX_set_strict_cipher_list := λ s, negb (string_empty s);
     SSL_CTX_set1_curves_list := λ s, negb (string_empty s);
     PEM_read_X509 := read_file;
     SSL_CTX_load_verify_locations := λ _, true;
     SSL_CTX_use_certificate_chain_file := λ _, true;
     SSL_CTX_use_PrivateKey_file := λ f, String.eqb f "key.pem";
     SSL_load_client_CA_file := λ f, (λ c, [x509_subject c]) <$> read_file f;
     Hex_decode := hex_decode;
     SHA256 := digest;
     SHA256_length := digest_length;
     ASN1_TIME_diff := time_diff;
     ASN1_TIME_diff_int := time_diff_int;
     EVP_EncryptInit_ex := λ _ _, init_ok;
     EVP_DecryptInit_ex := λ _ _, init_ok;
     HMAC_Init_ex := λ _, init_ok |}.

(** [n] copies of [s]. *)
Fixpoint string_repeat (n : nat) (s : string) : string :=
  match n with
  | O => EmptyString
  | S n' => s +:+ string_repeat n' s
  end.

(** 65534 characters: 255 names of 255 bytes, each followed by a comma, and
    a last name of 254 bytes. *)
Definition alpn_65534 : string :=
  string_repeat 255 (string_repeat 255 "a" +:+ ",") +:+ string_repeat 254 "a".

Definition stats0 : SslStats :=
  {| fail_verify_error_ := 0; fail_verify_san_ := 0; fail_verify_cert_hash_ := 0 |}.

(** A ticket key blob: a name of 16 bytes [n], then 32 bytes [h] and 32
    bytes [a]. *)
Definition blob (n h a : uint8_t) : list uint8_t :=
  replicate 16 n ++ replicate 32 h ++ replicate 32 a.

(** A ticket naming the key [n], not yet processed. *)
Definition ticket (n : uint8_t) : TicketArgs :=
  {| key_name := replicate 16 n; iv := replicate 16 9; ctx := None; hmac_ctx := None |}.

Definition config : ContextConfig :=
  {| Config.cipherSuites := "ECDHE-RSA-AES128-GCM-SHA256";
     Config.ecdhCurves := "X25519:P-256";
     Config.caCertFile := "ca.pem";
     Config.verifySubjectAltNameList := ["api.foo.com"];
     Config.verifyCertificateHash :=
       "30:82:03:0a:00:00:00:00:00:00:00:00:00:00:00:00:00:00:00:00:00:00:00:00:00:00:00:00:00:00:00:00";
     Config.certChainFile := "chain.pem";
     Config.privateKeyFile := "key.pem";
     Config.alpnProtocols := "h2,http/1.1" |}.

(** No CA certificate, no SAN list, no pinned hash, no certificate. *)
Definition config_none : ContextConfig :=
  {| Config.cipherSuites := "ECDHE-RSA-AES128-GCM-SHA256";
     Config.ecdhCurves := "X25519:P-256";
     Config.caCertFile := "";
     Config.verifySubjectAltNameList := [];
     Config.verifyCertificateHash := "";
     Config.certChainFile := "";
     Config.privateKeyFile := "";
     Config.alpnProtocols := "" |}.

Definition server_config (keys : list (list uint8_t)) : ServerContextConfig :=
  {| Config.base_config := config;
     Config.requireClientCertificate := false;
     Config.altAlpnProtocols := "";
     Config.sessionTicketKeys := keys |}.

(** The context [ContextImpl_ctor] builds from [config]. *)
Definition impl : ContextImpl :=
  {| ctx_ :=
       {| ssl_verify_mode := 3;
          ssl_cert_verify_callback := true;
          ssl_options := 37748736;
          ssl_client_CA_list := None;
          ssl_alpn_select_cb := false;
          ssl_tlsext_ticket_key_cb := false;
          ssl_session_id_context := [] |};
     ca_cert_ := Some ca_cert;
     ca_file_path_ := "ca.pem";
     cert_chain_ := Some (cert_with (Some [dns "server.example.com"]));
     cert_chain_file_path_ := "chain.pem";
     verify_subject_alt_name_list_ := ["api.foo.com"];
     verify_certificate_hash_ := [48; 130; 3; 10] ++ replicate 28 0;
     parsed_alpn_protocols_ := [2; 104; 50; 8; 104; 116; 116; 112; 47; 49; 46; 49] |}.


(** A server context holding the keys of the given blobs. *)
Definition server (keys : list (list uint8_t)) : ServerContextImpl :=
  {| base := impl;
     parsed_alt_alpn_protocols_ := [];
     session_ticket_keys_ := copy_SessionTicketKey <$> keys |}.

(** A context holding the given SAN list and pinned hash. *)
Definition impl_with (subject_alt_names : list string) (hash : list uint8_t)
    : ContextImpl :=
  {| ctx_ := ctx_ impl;
     ca_cert_ := ca_cert_ impl;
     ca_file_path_ := ca_file_path_ impl;
     cert_chain_ := cert_chain_ impl;
     cert_chain_file_path_ := cert_chain_file_path_ impl;
     verify_subject_alt_name_list_ := subject_alt_names;
     verify_certificate_hash_ := hash;
     parsed_alpn_protocols_ := parsed_alpn_protocols_ impl |}.

(** A CA certificate only: no SAN list, no pinned hash. *)
Definition config_ca : ContextConfig :=
  {| Config.cipherSuites := "ECDHE-RSA-AES128-GCM-SHA256";
     Config.ecdhCurves := "X25519:P-256";
     Config.caCertFile := "ca.pem";
     Config.verifySubjectAltNameList := [];
     Config.verifyCertificateHash := "";
     Config.certChainFile := "";
     Config.privateKeyFile := "";
     Config.alpnProtocols := "" |}.

(** A certificate whose expiry time [time_diff] cannot read. *)
Definition unreadable_cert : X509 :=
  {| x509_subject := "CN=odd";
     x509_serialNumber := 3;
     x509_notAfter := "never";
     x509_altnames := None;
     x509_der := [48; 130; 4; 4] |}.

(** A context holding the given certificates. *)
Definition impl_certs (ca_cert cert_chain : option X509) : ContextImpl :=
  {| ctx_ := ctx_ impl;
     ca_cert_ := ca_cert;
     ca_file_path_ := match ca_cert with Some _ => "ca.pem" | None => "" end;
     cert_chain_ := cert_chain;
     cert_chain_file_path_ :=
       match cert_chain with Some _ => "chain.pem" | None => "" end;
     verify_subject_alt_name_list_ := [];
     verify_certificate_hash_ := [];
     parsed_alpn_protocols_ := [] |}.

(** A stand-in for [SSL_select_next_proto]: the first server entry that the
    client offers too, else no overlap (status 2) and the client's first
    entry. *)
Definition select_next_proto (server client : list uint8_t) : Z * list uint8_t :=
  match Wire.decode server, Wire.decode client with
  | Some server_entries, Some client_entries =>
      match List.find (λ entry, bool_decide (entry ∈ client_entries)) server_entries with
      | Some entry => (1, entry.2)
      | None => (2, default [] (snd <$> head client_entries))
      end
  | _, _ => (2, [])
  end.

Definition negotiation : Negotiation :=
  {| SSL_select_next_proto := select_next_proto |}.

(** A stand-in for [BN_bn2hex]. *)
Definition bignum : Bignum :=
  {| BN_bn2hex := λ serial, if serial =? 4096 then Some "1000" else Some "01" |}.

(** Connections as [logHandshake] sees them. *)
Definition connection (reused : bool) (cipher : string) (cert : option X509) : SSL :=
  {| ssl_session_reused := reused; ssl_cipher_name := cipher;
     ssl_peer_certificate := cert |}.

End Sample.


(** * Properties *)

(** ** Strings *)

Section Strings.

Lemma append_cons c (s t : string) : String c s +:+ t = String c (s +:+ t).
Proof. reflexivity. Qed.

Lemma append_nil_l (s : string) : "" +:+ s = s.
Proof. reflexivity. Qed.

Lemma append_nil_r (s : string) : s +:+ "" = s.
Proof. induction s as [|c s IH]; [done|]. by rewrite append_cons, IH. Qed.

Lemma append_assoc (s t u : string) : (s +:+ t) +:+ u = s +:+ t +:+ u.
Proof. induction s as [|c s IH]; [done|]. by rewrite !append_cons, IH. Qed.

Lemma length_append (s t : string) :
  String.length (s +:+ t) = (String.length s + String.length t)%nat.
Proof. induction s as [|c s IH]; [done|]. rewrite append_cons. simpl. by rewrite IH. Qed.

Lemma get_append_length (s t : string) :
  String.get (String.length s) (s +:+ t) = String.get 0 t.
Proof. induction s as [|c s IH]; [done|]. rewrite append_cons. simpl. apply IH. Qed.

Lemma string_at_append_length (s t : string) c :
  string_at (s +:+ String c t) (String.length s) = c.
Proof. unfold string_at. by rewrite get_append_length. Qed.

Lemma bytes_of_string_append (s t : string) :
  bytes_of_string (s +:+ t) = bytes_of_string s ++ bytes_of_string t.
Proof.
  unfold bytes_of_string. induction s as [|c s IH]; [done|].
  rewrite append_cons. cbn [list_ascii_of_string]. by rewrite !fmap_cons, IH.
Qed.

Lemma length_bytes_of_string (s : string) :
  length (bytes_of_string s) = String.length s.
Proof.
  unfold bytes_of_string. rewrite length_fmap.
  induction s as [|c s IH]; simpl; [done|]. by rewrite IH.
Qed.

Lemma string_empty_spec (s : string) : string_empty s = true ↔ s = "".
Proof. by destruct s. Qed.

Lemma vector_empty_spec {A} (v : list A) : vector_empty v = true ↔ v = [].
Proof. by destruct v. Qed.

Lemma char_to_uint8_range c : 0 ≤ char_to_uint8 c < 256.
Proof.
  unfold char_to_uint8. pose proof (N_ascii_bounded c). lia.
Qed.

End Strings.

(** ** ALPN parsing *)

Section Alpn.
Import Wire.

Lemma split_comma_cons (s : string) : ∃ h t, split_comma s = h :: t.
Proof.
  induction s as [|c s (h & t & IH)]; simpl; [by eauto|].
  rewrite IH. destruct (Ascii.eqb c ","); eauto.
Qed.

Lemma split_comma_append (cur rem : string) :
  comma_free cur = true →
  split_comma (cur +:+ rem)
  = match split_comma rem with
    | h :: t => (cur +:+ h) :: t
    | [] => [cur]
    end.
Proof.
  destruct (split_comma_cons rem) as (h & t & Hrem).
  induction cur as [|c cur IH]; intros Hfree.
  - by rewrite append_nil_l, Hrem.
  - simpl in Hfree. apply andb_true_iff in Hfree as [Hc Hfree].
    rewrite append_cons. simpl. apply negb_true_iff in Hc. rewrite Hc.
    rewrite IH by done. by rewrite Hrem.
Qed.

Lemma comma_free_snoc (cur : string) c :
  comma_free cur = true → Ascii.eqb c "," = false →
  comma_free (cur +:+ String c "") = true.
Proof.
  intros Hfree Hc. induction cur as [|d cur IH].
  - rewrite append_nil_l. simpl. by rewrite Hc.
  - rewrite append_cons. simpl in *.
    apply andb_true_iff in Hfree as [-> Hfree]. by rewrite IH.
Qed.

Lemma encode_names_cons p ps :
  encode_names (p :: ps) = encode_entry p ++ encode_names ps.
Proof. reflexivity. Qed.

(** A guarded subtraction on [size_t] is the subtraction of [nat]. *)
Lemma size_t_sub_guarded (a b : nat) :
  (b ≤ a)%nat → Z.of_nat a < 2 ^ 64 → size_t_sub a b = Z.of_nat (a - b).
Proof.
  intros Hle Ha. unfold size_t_sub, to_size_t. rewrite Z.mod_small; lia.
Qed.

Lemma size_t_sub_exact (i start len : nat) :
  i = (start + len)%nat → Z.of_nat len < 2 ^ 64 → size_t_sub i start = Z.of_nat len.
Proof.
  intros -> Hlen. unfold size_t_sub, to_size_t.
  rewrite Z.mod_small; lia.
Qed.

Lemma for_each_cons {S I} (body : S → I → Result S) st i l :
  for_each body st (i :: l) = body st i ≫= λ st', for_each body st' l.
Proof. reflexivity. Qed.

(** The three ways through the loop body. *)
Lemma parseAlpn_body_close s start out i len :
  (i = String.length s ∨ string_at s i = ","%char) →
  i = (start + len)%nat → (len ≤ 255)%nat →
  parseAlpn_body s (start, out) i = Ok (S i, <[start := Z.of_nat len]> out).
Proof.
  intros Hend Hi Hlen. unfold parseAlpn_body.
  replace (bool_decide (i = String.length s) || Ascii.eqb (string_at s i) ",")
    with true.
  2:{ symmetry. apply orb_true_iff.
      destruct Hend as [->| ->]; [left; by apply bool_decide_eq_true_2|right].
      apply Ascii.eqb_refl. }
  rewrite (size_t_sub_exact i start len) by lia.
  rewrite Z.gtb_ltb, (proj2 (Z.ltb_ge _ _)) by lia.
  unfold to_uint8. rewrite Z.mod_small by lia. do 2 f_equal. lia.
Qed.

Lemma parseAlpn_body_too_long s start out i len :
  (i = String.length s ∨ string_at s i = ","%char) →
  i = (start + len)%nat → (255 < len)%nat → Z.of_nat len < 2 ^ 64 →
  parseAlpn_body s (start, out) i = Throw invalid_alpn.
Proof.
  intros Hend Hi Hlen Hsize. unfold parseAlpn_body.
  replace (bool_decide (i = String.length s) || Ascii.eqb (string_at s i) ",")
    with true.
  2:{ symmetry. apply orb_true_iff.
      destruct Hend as [->| ->]; [left; by apply bool_decide_eq_true_2|right].
      apply Ascii.eqb_refl. }
  rewrite (size_t_sub_exact i start len) by lia.
  by rewrite Z.gtb_ltb, (proj2 (Z.ltb_lt _ _)) by lia.
Qed.

Lemma parseAlpn_body_copy s start out i :
  i ≠ String.length s → Ascii.eqb (string_at s i) "," = false →
  parseAlpn_body s (start, out) i
  = Ok (start, <[S i := char_to_uint8 (string_at s i)]> out).
Proof.
  intros Hi Hc. unfold parseAlpn_body.
  rewrite bool_decide_eq_false_2, Hc by done. cbn [orb].
  do 3 f_equal. lia.
Qed.

(** The loop invariant: [pre] holds the entries already closed, [cur] the
    name being copied (its length byte [x] still to be written), [rest] the
    untouched tail of [out]. *)
Lemma parseAlpn_loop (s : string) :
  Z.of_nat (String.length s) < 2 ^ 64 →
  ∀ (rem consumed cur : string) (pre rest : list uint8_t) (x : uint8_t),
    s = consumed +:+ rem →
    comma_free cur = true →
    String.length consumed = (length pre + String.length cur)%nat →
    length rest = String.length rem →
    for_each (parseAlpn_body s) (length pre, pre ++ x :: bytes_of_string cur ++ rest)
      (seq (String.length consumed) (S (String.length rem)))
    = if forallb name_fits (split_comma (cur +:+ rem))
      then Ok (S (String.length s), pre ++ encode_names (split_comma (cur +:+ rem)))
      else Throw invalid_alpn.
Proof.
  intros Hsize rem.
  induction rem as [|c rem IH]; intros consumed cur pre rest x Hs Hfree Hlen Hrest.
  - rewrite append_nil_r in Hs. subst consumed.
    destruct rest; [|done].
    rewrite app_nil_r, split_comma_append by done.
    cbn [split_comma forallb seq String.length]. rewrite for_each_cons.
    rewrite append_nil_r. unfold name_fits. case_bool_decide as Hfit.
    + rewrite (parseAlpn_body_close _ _ _ _ (String.length cur)) by (auto; lia).
      unfold mbind, Result_bind. cbn [for_each andb].
      rewrite encode_names_cons. unfold encode_names, encode_entry.
      cbn [fmap list_fmap concat]. rewrite app_nil_r.
      replace (length pre) with (length pre + 0)%nat at 1 by lia.
      by rewrite insert_app_r.
    + by rewrite (parseAlpn_body_too_long _ _ _ _ (String.length cur)) by (auto; lia).
  - assert (String.length s
            = (String.length consumed + S (String.length rem))%nat) as Hslen.
    { by rewrite Hs, length_append. }
    assert (string_at s (String.length consumed) = c) as Hat.
    { rewrite Hs. apply string_at_append_length. }
    destruct rest as [|y rest]; [done|]. simpl in Hrest.
    replace (S (String.length (String c rem)))
      with (S (S (String.length rem))) by done.
    rewrite <- cons_seq, for_each_cons.
    destruct (Ascii.eqb c ",") eqn:Hc.
    + apply Ascii.eqb_eq in Hc as ->.
      rewrite split_comma_append by done. cbn [split_comma].
      rewrite Ascii.eqb_refl, append_nil_r. cbn [forallb]. unfold name_fits at 1.
      case_bool_decide as Hfit.
      * rewrite (parseAlpn_body_close _ _ _ _ (String.length cur)) by (auto; lia).
        replace (length pre) with (length pre + 0)%nat at 1 by lia.
        rewrite insert_app_r. cbn [list_insert insert].
        specialize (IH (consumed +:+ ",") ""
                      (pre ++ encode_entry cur) rest y).
        rewrite length_append in IH. cbn [String.length] in IH.
        replace (String.length consumed + 1)%nat
          with (S (String.length consumed)) in * by lia.
        unfold mbind, Result_bind. cbn [andb].
        replace (pre ++ Z.of_nat (String.length cur) :: bytes_of_string cur ++ y :: rest)
          with ((pre ++ encode_entry cur) ++ y :: bytes_of_string "" ++ rest)
          by (unfold encode_entry; rewrite <- app_assoc; done).
        assert (length (pre ++ encode_entry cur) = S (String.length consumed)) as Hpre.
        { unfold encode_entry. rewrite length_app. cbn.
          rewrite length_bytes_of_string. lia. }
        rewrite <- Hpre at 1. rewrite IH.
        -- rewrite append_nil_l. destruct (forallb _ _); [|done].
           by rewrite encode_names_cons, <- app_assoc.
        -- by rewrite Hs, append_assoc.
        -- done.
        -- lia.
        -- lia.
      * by rewrite (parseAlpn_body_too_long _ _ _ _ (String.length cur))
          by (auto; lia).
    + rewrite parseAlpn_body_copy by (rewrite ?Hat; done || lia).
      rewrite Hat. unfold mbind, Result_bind.
      specialize (IH (consumed +:+ String c "") (cur +:+ String c "") pre rest x).
      rewrite length_append in IH. cbn [String.length] in IH.
      replace (String.length consumed + 1)%nat
        with (S (String.length consumed)) in * by lia.
      replace (<[S (String.length consumed):=char_to_uint8 c]>
                 (pre ++ x :: bytes_of_string cur ++ y :: rest))
        with (pre ++ x :: bytes_of_string (cur +:+ String c "") ++ rest).
      2:{ rewrite bytes_of_string_append, <- app_assoc.
          replace (S (String.length consumed))
            with (length pre + S (length (bytes_of_string cur) + 0))%nat
            by (rewrite length_bytes_of_string; lia).
          rewrite insert_app_r.
          change (<[S ?n:=?v]> (?a :: ?l)) with (a :: <[n:=v]> l).
          by rewrite insert_app_r. }
      rewrite IH.
      * by rewrite append_assoc.
      * by rewrite Hs, append_assoc.
      * by apply comma_free_snoc.
      * rewrite length_append. cbn. lia.
      * lia.
Qed.

(** The parser against the wire format. *)
Lemma parseAlpnProtocols_spec (s : string) :
  parseAlpnProtocols s
  = if string_empty s then Ok []
    else if Z.of_nat (String.length s) >=? 65535 then Throw invalid_alpn
    else if forallb name_fits (split_comma s)
    then Ok (encode_names (split_comma s))
    else Throw invalid_alpn.
Proof.
  unfold parseAlpnProtocols.
  destruct (string_empty s); [done|].
  destruct (Z.of_nat (String.length s) >=? 65535) eqn:Hsize; [done|].
  rewrite Z.geb_leb in Hsize. apply Z.leb_gt in Hsize.
  pose proof (parseAlpn_loop s ltac:(lia) s "" "" [] (replicate (String.length s) 0) 0
                ltac:(done) ltac:(done) ltac:(done)) as Hloop.
  rewrite length_replicate in Hloop. specialize (Hloop eq_refl).
  rewrite append_nil_l in Hloop. cbn [length String.length app bytes_of_string
    list_ascii_of_string fmap list_fmap] in Hloop.
  replace (String.length s + 1)%nat with (S (String.length s)) by lia.
  cbn [replicate]. rewrite Hloop.
  by destruct (forallb name_fits (split_comma s)).
Qed.

Lemma length_encode_names_split (s : string) :
  length (encode_names (split_comma s)) = S (String.length s).
Proof.
  induction s as [|c s IH]; [done|].
  cbn [split_comma String.length]. destruct (split_comma_cons s) as (h & t & Hs).
  rewrite Hs in *. rewrite !encode_names_cons, length_app in IH.
  destruct (Ascii.eqb c ",").
  - rewrite !encode_names_cons, !length_app. cbn in *. lia.
  - rewrite encode_names_cons, length_app. unfold encode_entry in *.
    cbn [length String.length] in *. rewrite length_bytes_of_string in *.
    cbn [String.length]. lia.
Qed.

Lemma name_fits_false (names : list string) :
  forallb name_fits names = false
  ↔ ∃ protocol, protocol ∈ names ∧ (255 < String.length protocol)%nat.
Proof.
  induction names as [|p names IH]; cbn [forallb].
  - split; [done|]. intros (p & Hp & _). by apply elem_of_nil in Hp.
  - rewrite andb_false_iff, IH. unfold name_fits. split.
    + intros [Hp|(q & Hq & Hlen)].
      * exists p. split; [left|]. apply bool_decide_eq_false in Hp. lia.
      * exists q. split; [by right|done].
    + intros (q & Hq & Hlen). apply elem_of_cons in Hq as [->|Hq].
      * left. apply bool_decide_eq_false. lia.
      * right. eauto.
Qed.

(** Decoding what [encode_names] wrote gives the names back. *)
Lemma decode_entries_encode (names : list string) (rounds : nat) :
  (length (encode_names names) ≤ rounds)%nat →
  decode_entries rounds (encode_names names)
  = Some ((λ p, (Z.of_nat (String.length p), bytes_of_string p)) <$> names).
Proof.
  revert rounds. induction names as [|p names IH]; intros rounds Hrounds.
  - by destruct rounds.
  - rewrite encode_names_cons in *. unfold encode_entry in *.
    rewrite length_app in Hrounds. cbn [length] in Hrounds.
    destruct rounds as [|rounds]; [lia|].
    cbn [app decode_entries]. rewrite Nat2Z.id.
    rewrite bool_decide_eq_true_2
      by (rewrite length_app, length_bytes_of_string; lia).
    rewrite (drop_app_length' (bytes_of_string p)),
      (take_app_length' (bytes_of_string p))
      by (by rewrite length_bytes_of_string).
    rewrite IH by lia. by rewrite fmap_cons.
Qed.

Lemma decode_encode (names : list string) :
  decode (encode_names names)
  = Some ((λ p, (Z.of_nat (String.length p), bytes_of_string p)) <$> names).
Proof. by apply decode_entries_encode. Qed.

Lemma length_string_repeat n s :
  String.length (Sample.string_repeat n s) = (n * String.length s)%nat.
Proof.
  induction n as [|n IH]; [done|].
  cbn [Sample.string_repeat]. rewrite length_append, IH. lia.
Qed.

(** The longest accepted input: 65534 characters, encoded in 65535 bytes. *)
Lemma parseAlpnProtocols_65534 :
  Z.of_nat (String.length Sample.alpn_65534) = 65534
  ∧ parseAlpnProtocols Sample.alpn_65534
    = Ok (encode_names (split_comma Sample.alpn_65534))
  ∧ Z.of_nat (length (encode_names (split_comma Sample.alpn_65534))) = 65535.
Proof.
  assert (Z.of_nat (String.length Sample.alpn_65534) = 65534) as Hlen.
  { unfold Sample.alpn_65534.
    rewrite length_append, !length_string_repeat, length_append,
      length_string_repeat.
    cbn [String.length]. lia. }
  split; [done|]. split.
  - rewrite parseAlpnProtocols_spec, Hlen.
    replace (forallb name_fits (split_comma Sample.alpn_65534)) with true
      by (vm_compute; reflexivity).
    reflexivity.
  - rewrite length_encode_names_split. lia.
Qed.

(** C6, as amended. The empty string yields the empty list. A non-empty
    string is rejected, with the exception "invalid ALPN protocol string",
    exactly when one of its comma-separated names is longer than 255 bytes
    or its encoding (one byte more than the string) would exceed 65535
    bytes; every other string is encoded as its names, each behind its
    length byte. *)
Theorem parseAlpnProtocols_throws_iff (alpn_protocols : string) :
  parseAlpnProtocols "" = Ok []
  ∧ (parseAlpnProtocols alpn_protocols = Throw invalid_alpn
     ↔ alpn_protocols ≠ ""
       ∧ ((∃ protocol, protocol ∈ split_comma alpn_protocols
                       ∧ (255 < String.length protocol)%nat)
          ∨ 65535 < Z.of_nat (length (encode_names (split_comma alpn_protocols)))))
  ∧ (parseAlpnProtocols alpn_protocols = Throw invalid_alpn
     ∨ parseAlpnProtocols alpn_protocols
       = Ok (if string_empty alpn_protocols then []
             else encode_names (split_comma alpn_protocols))).
Proof.
  split; [done|].
  rewrite parseAlpnProtocols_spec, length_encode_names_split.
  destruct (string_empty alpn_protocols) eqn:Hempty.
  { apply string_empty_spec in Hempty as ->.
    split; [|by right]. split; [done|]. by intros [? _]. }
  assert (alpn_protocols ≠ "") as Hne.
  { intros ->. done. }
  destruct (Z.of_nat (String.length alpn_protocols) >=? 65535) eqn:Hsize.
  { rewrite Z.geb_leb in Hsize. apply Z.leb_le in Hsize.
    split; [|by left]. split; [|done]. intros _. split; [done|]. right. lia. }
  rewrite Z.geb_leb in Hsize. apply Z.leb_gt in Hsize.
  destruct (forallb name_fits (split_comma alpn_protocols)) eqn:Hfits.
  - split; [|by right]. split; [done|].
    intros [_ [Hlong|?]]; [|lia].
    apply name_fits_false in Hlong. congruence.
  - split; [|by left]. split; [|done]. intros _. split; [done|]. left.
    by apply name_fits_false.
Qed.

Lemma parseAlpnProtocols_throws_iff_witness :
  parseAlpnProtocols "h2,http/1.1"
  = Ok [2; 104; 50; 8; 104; 116; 116; 112; 47; 49; 46; 49].
Proof.
  destruct (parseAlpnProtocols_throws_iff "h2,http/1.1") as (_ & _ & [H|H]).
  - discriminate H.
  - exact H.
Defined.

(** C6 as stated fails: an input of 65534 bytes, no name longer than 255,
    is accepted although its encoding reaches 65535 bytes. *)
Lemma parseAlpnProtocols_accepts_65535_bytes :
  (∀ protocol, protocol ∈ split_comma Sample.alpn_65534
               → (String.length protocol ≤ 255)%nat)
  ∧ ∃ out, parseAlpnProtocols Sample.alpn_65534 = Ok out
           ∧ Z.of_nat (length out) = 65535.
Proof.
  destruct parseAlpnProtocols_65534 as (_ & Hok & Hlen). split; [|by eauto].
  intros protocol Hin.
  destruct (decide (String.length protocol ≤ 255)%nat) as [|Hlong]; [done|].
  assert (forallb name_fits (split_comma Sample.alpn_65534) = false) as Hfits.
  { apply name_fits_false. exists protocol. split; [done|lia]. }
  vm_compute in Hfits. discriminate Hfits.
Qed.

(** C8, as amended. An accepted string is encoded as a sequence of entries,
    one per comma-separated name and in the same order, each a length byte
    between 0 and 255 followed by that many bytes (the length is 0 for an
    empty name); the encoding is at most 65535 bytes long. *)
Theorem parseAlpnProtocols_wire (alpn_protocols : string) (out : list uint8_t) :
  parseAlpnProtocols alpn_protocols = Ok out →
  ∃ entries,
    decode out = Some entries
    ∧ entries = (if string_empty alpn_protocols then []
                 else (λ p, (Z.of_nat (String.length p), bytes_of_string p))
                        <$> split_comma alpn_protocols)
    ∧ Forall (λ entry, 0 ≤ entry.1 ≤ 255
                       ∧ entry.1 = Z.of_nat (length entry.2)
                       ∧ Forall (λ b, 0 ≤ b < 256) entry.2) entries
    ∧ Z.of_nat (length out) ≤ 65535.
Proof.
  rewrite parseAlpnProtocols_spec.
  destruct (string_empty alpn_protocols).
  { intros [= <-]. exists []. repeat split; [constructor|done]. }
  destruct (Z.of_nat (String.length alpn_protocols) >=? 65535) eqn:Hsize; [done|].
  rewrite Z.geb_leb in Hsize. apply Z.leb_gt in Hsize.
  destruct (forallb name_fits (split_comma alpn_protocols)) eqn:Hfits; [|done].
  intros [= <-]. eexists. split; [apply decode_encode|]. split; [done|]. split.
  - apply Forall_fmap, Forall_forall. intros p Hp. cbn.
    rewrite length_bytes_of_string. split; [|split; [done|]].
    + rewrite forallb_forall in Hfits.
      pose proof (Hfits p (proj1 (list_elem_of_In _ _) Hp)) as Hfit.
      unfold name_fits in Hfit. apply bool_decide_eq_true in Hfit. lia.
    + unfold bytes_of_string. apply Forall_fmap, Forall_forall.
      intros c _. apply char_to_uint8_range.
  - rewrite length_encode_names_split. lia.
Qed.

Lemma parseAlpnProtocols_wire_witness :
  ∃ entries,
    decode [2; 104; 50; 8; 104; 116; 116; 112; 47; 49; 46; 49] = Some entries
    ∧ entries = [(2, [104; 50]); (8, [104; 116; 116; 112; 47; 49; 46; 49])].
Proof.
  destruct (parseAlpnProtocols_wire "h2,http/1.1"
              [2; 104; 50; 8; 104; 116; 116; 112; 47; 49; 46; 49] eq_refl)
    as (entries & Hdec & -> & _).
  eexists. split; [exact Hdec|reflexivity].
Defined.

(** C8 as stated fails: an empty name between two commas is encoded as an
    entry whose length byte is 0, and the encoding of the 65534-byte input
    is 65535 bytes long. *)
Lemma parseAlpnProtocols_zero_length_entry :
  parseAlpnProtocols "a,,b" = Ok [1; 97; 0; 1; 98]
  ∧ decode [1; 97; 0; 1; 98] = Some [(1, [97]); (0, []); (1, [98])]
  ∧ ∃ out, parseAlpnProtocols Sample.alpn_65534 = Ok out
           ∧ ¬ Z.of_nat (length out) < 65535.
Proof.
  split; [reflexivity|]. split; [reflexivity|].
  destruct parseAlpnProtocols_65534 as (_ & Hok & Hlen).
  eexists. split; [exact Hok|]. lia.
Qed.

End Alpn.

(** ** Subject alternative names *)

Section SubjectAltName.

Lemma substring_all (s : string) : substring 0 (String.length s) s = s.
Proof. induction s as [|c s IH]; [done|]. simpl. by rewrite IH. Qed.

Lemma substring_append_r (p t : string) :
  substring (String.length p) (String.length t) (p +:+ t) = t.
Proof.
  induction p as [|c p IH]; [apply substring_all|].
  rewrite append_cons. simpl. apply IH.
Qed.

Lemma substring_split (s : string) (n : nat) :
  (n ≤ String.length s)%nat →
  s = substring 0 n s +:+ substring n (String.length s - n) s.
Proof.
  revert n. induction s as [|c s IH]; intros n Hn.
  - simpl in Hn. by replace n with 0%nat by lia.
  - destruct n as [|n].
    + rewrite Nat.sub_0_r, substring_all. by destruct s.
    + simpl in *. rewrite append_cons. f_equal. apply IH. lia.
Qed.

Lemma length_substring_0 (s : string) (n : nat) :
  (n ≤ String.length s)%nat → String.length (substring 0 n s) = n.
Proof.
  revert n. induction s as [|c s IH]; intros [|n] Hn; simpl in *; try done; try lia.
  rewrite IH; lia.
Qed.

(** What [dNSNameMatch] accepts: its first argument equals the second, or
    the second is [*.suffix] and the first is a non-empty prefix followed by
    [.suffix]. *)
Lemma dNSNameMatch_true (dNSName pattern : string) :
  dNSNameMatch dNSName pattern = true
  ↔ dNSName = pattern
    ∨ ∃ prefix suffix, prefix ≠ "" ∧ pattern = "*." +:+ suffix
                       ∧ dNSName = prefix +:+ "." +:+ suffix.
Proof.
  unfold dNSNameMatch.
  destruct (String.eqb_spec dNSName pattern) as [->|Hne]; [by intuition|].
  split.
  - intros Hmatch. right.
    destruct pattern as [|c0 [|c1 suffix]]; try done.
    unfold string_at in Hmatch. cbn [String.get default String.length] in Hmatch.
    destruct (_ && _ && _) eqn:Hcond in Hmatch; [|done].
    apply andb_true_iff in Hcond as [Hcond Hc1].
    apply andb_true_iff in Hcond as [_ Hc0].
    apply Ascii.eqb_eq in Hc0, Hc1. unfold id in Hc0, Hc1. subst c0 c1.
    case_bool_decide as Hlen; [|done].
    apply String.eqb_eq in Hmatch.
    cbn [Nat.sub] in *.
    change (substring 1 (S (String.length suffix)) (String "*" (String "." suffix)))
      with (String "." (substring 0 (String.length suffix) suffix)) in Hmatch.
    rewrite substring_all in Hmatch.
    set (off := (String.length dNSName - S (S (String.length suffix)) + 1)%nat) in *.
    exists (substring 0 off dNSName), suffix. split; [|split; [done|]].
    + intros Hempty. apply (f_equal String.length) in Hempty.
      rewrite length_substring_0 in Hempty by lia. simpl in Hempty. lia.
    + rewrite (substring_split dNSName off) at 1 by lia. f_equal.
      change ("." +:+ suffix) with (String "." suffix).
      rewrite <- Hmatch. f_equal. lia.
  - intros [?|(prefix & suffix & Hprefix & -> & ->)]; [done|].
    change ("*." +:+ suffix) with (String "*" (String "." suffix)) in *.
    change ("." +:+ suffix) with (String "." suffix) in *.
    assert (0 < String.length prefix)%nat by (destruct prefix; simpl; [done|lia]).
    unfold string_at. cbn [String.get default from_option id String.length].
    rewrite !Ascii.eqb_refl, bool_decide_eq_true_2 by lia. cbn [andb Nat.sub].
    rewrite !length_append. cbn [String.length].
    rewrite bool_decide_eq_true_2 by lia.
    apply String.eqb_eq.
    replace (String.length prefix + S (String.length suffix)
             - S (S (String.length suffix)) + 1)%nat
      with (String.length prefix) by lia.
    change (S (String.length suffix)) with (String.length (String "." suffix)).
    rewrite substring_append_r.
    change (substring 1 (String.length (String "." suffix))
              (String "*" (String "." suffix)))
      with (String "." (substring 0 (String.length suffix) suffix)).
    by rewrite substring_all.
Qed.

Lemma any_config_san_true (matches : string → bool) (subject_alt_names : list string) :
  any_config_san matches subject_alt_names = true
  ↔ ∃ config_san, config_san ∈ subject_alt_names ∧ matches config_san = true.
Proof.
  unfold any_config_san. rewrite existsb_exists.
  by setoid_rewrite list_elem_of_In.
Qed.

(** C1, as amended. A presented DNS entry verifies when some configured
    name matches it, and a name matches an entry equal to it. The wildcard
    is read in the presented entry, not in the configured name: a presented
    entry [*.suffix] matches a configured name exactly when that name is
    longer than [.suffix] and ends with [.suffix], at any subdomain depth.
    So the presented entry [*.example.com] matches the configured names
    [www.example.com] and [a.b.example.com] and does not match
    [example.com]. *)
Theorem dNSNameMatch_wildcard (subject_alt_names : list string) (altname : GENERAL_NAME)
    (suffix : string) :
  (gn_type altname = GEN_DNS →
   altname_verified subject_alt_names altname = true
   ↔ ∃ config_san, config_san ∈ subject_alt_names
                   ∧ dNSNameMatch config_san (c_str (gn_data altname)) = true)
  ∧ (∀ dns_name, dNSNameMatch dns_name dns_name = true)
  ∧ (∀ config_san,
       dNSNameMatch config_san ("*." +:+ suffix) = true
       ↔ ∃ prefix, prefix ≠ "" ∧ config_san = prefix +:+ "." +:+ suffix)
  ∧ dNSNameMatch "www.example.com" "*.example.com" = true
  ∧ dNSNameMatch "a.b.example.com" "*.example.com" = true
  ∧ dNSNameMatch "example.com" "*.example.com" = false.
Proof.
  split; [|split; [|split; [|done]]].
  - intros Htype. unfold altname_verified. rewrite Htype. cbn [Z.eqb GEN_DNS].
    apply any_config_san_true.
  - intros dns_name. apply dNSNameMatch_true. by left.
  - intros config_san. rewrite dNSNameMatch_true. split.
    + intros [->|(prefix & suffix' & Hprefix & Hsuffix & ->)].
      * by exists "*".
      * change (String "*" (String "." suffix) = String "*" (String "." suffix'))
          in Hsuffix.
        injection Hsuffix as Hsuffix. subst suffix'. eauto.
    + intros (prefix & Hprefix & ->). right. eauto.
Qed.

Lemma dNSNameMatch_wildcard_witness :
  altname_verified ["example.com"; "www.example.com"] (Sample.dns "*.example.com") = true.
Proof.
  destruct (dNSNameMatch_wildcard ["example.com"; "www.example.com"]
              (Sample.dns "*.example.com") "example.com") as [Hverified _].
  apply Hverified; [reflexivity|].
  exists "www.example.com". split; [|reflexivity].
  apply elem_of_cons. right. apply elem_of_cons. by left.
Defined.

(** C1 as stated fails: a configured [*.example.com] does not match the
    presented names [www.example.com] and [a.b.example.com], although both
    are longer than [.example.com] and end with it. *)
Lemma configured_wildcard_no_match :
  dNSNameMatch "*.example.com" "www.example.com" = false
  ∧ verifySubjectAltName (Sample.cert_with (Some [Sample.dns "www.example.com"]))
      ["*.example.com"] = false
  ∧ verifySubjectAltName (Sample.cert_with (Some [Sample.dns "a.b.example.com"]))
      ["*.example.com"] = false.
Proof. repeat split; reflexivity. Qed.

Lemma altnames_loop_other (subject_alt_names : list string)
    (altnames : list GENERAL_NAME) :
  Forall (λ altname, gn_type altname ≠ GEN_DNS ∧ gn_type altname ≠ GEN_URI) altnames →
  altnames_loop subject_alt_names altnames false = false.
Proof.
  induction 1 as [|altname altnames [Hdns Huri] _ IH]; [done|].
  cbn [altnames_loop]. unfold altname_verified.
  apply Z.eqb_neq in Hdns, Huri. by rewrite Hdns, Huri.
Qed.

Section WithLibrary.
Context `{Library}.

(** C10. With a non-empty configured list, a certificate without a subject
    alternative name extension, or whose extension has no DNS and no URI
    entry, fails [verifySubjectAltName] and is rejected with the SAN
    counter incremented, whatever its other fields. *)
Theorem verifySubjectAltName_without_names (impl : ContextImpl) (cert : X509)
    (stats_ : SslStats) :
  verify_subject_alt_name_list_ impl ≠ [] →
  (x509_altnames cert = None
   ∨ ∃ altnames, x509_altnames cert = Some altnames
       ∧ Forall (λ altname, gn_type altname ≠ GEN_DNS ∧ gn_type altname ≠ GEN_URI)
           altnames) →
  verifySubjectAltName cert (verify_subject_alt_name_list_ impl) = false
  ∧ verifyCertificate impl cert stats_ = (0, inc_fail_verify_san stats_)
  ∧ ∀ ret, 0 < ret → verifyCallback impl ret cert stats_ = (0, inc_fail_verify_san stats_).
Proof.
  intros Hlist Hnames.
  assert (verifySubjectAltName cert (verify_subject_alt_name_list_ impl) = false)
    as Hsan.
  { unfold verifySubjectAltName.
    destruct Hnames as [->|(altnames & -> & Hother)]; [done|].
    by apply altnames_loop_other. }
  assert (verifyCertificate impl cert stats_ = (0, inc_fail_verify_san stats_))
    as Hverify.
  { unfold verifyCertificate. rewrite Hsan.
    by destruct (verify_subject_alt_name_list_ impl). }
  split; [done|]. split; [done|].
  intros ret Hret. unfold verifyCallback.
  by rewrite (proj2 (Z.leb_gt _ _)) by lia.
Qed.

End WithLibrary.

End SubjectAltName.

(** ** Construction *)

Section Construction.
Context `{Library}.

(** The pinned digest kept by the constructor. *)
Lemma ContextImpl_ctor_fields (config : ContextConfig) (impl : ContextImpl) :
  ContextImpl_ctor config = Ok impl →
  let verify_mode :=
    if negb (string_empty (Config.verifyCertificateHash config))
       || negb (vector_empty (Config.verifySubjectAltNameList config))
    then Z.lor SSL_VERIFY_PEER SSL_VERIFY_FAIL_IF_NO_PEER_CERT
    else if negb (string_empty (Config.caCertFile config)) then SSL_VERIFY_PEER
    else SSL_VERIFY_NONE in
  ssl_verify_mode (ctx_ impl) = verify_mode
  ∧ ssl_cert_verify_callback (ctx_ impl) = negb (verify_mode =? SSL_VERIFY_NONE)
  ∧ ca_cert_ impl = (if string_empty (Config.caCertFile config) then None
                     else PEM_read_X509 (Config.caCertFile config))
  ∧ (string_empty (Config.caCertFile config) = false → is_Some (ca_cert_ impl))
  ∧ verify_subject_alt_name_list_ impl = Config.verifySubjectAltNameList config
  ∧ (if string_empty (Config.verifyCertificateHash config) then Ok []
     else Hex_decode (erase_remove ":" (Config.verifyCertificateHash config)))
    = Ok (verify_certificate_hash_ impl)
  ∧ parseAlpnProtocols (Config.alpnProtocols config) = Ok (parsed_alpn_protocols_ impl).
Proof.
  unfold ContextImpl_ctor, loadCert, mbind, Result_bind.
  destruct config as [ciphers curves ca san hash chain key alpn].
  cbn [Config.cipherSuites Config.ecdhCurves Config.caCertFile
       Config.verifySubjectAltNameList Config.verifyCertificateHash
       Config.certChainFile Config.privateKeyFile Config.alpnProtocols].
  destruct (SSL_CTX_set_strict_cipher_list ciphers); [|done].
  destruct (SSL_CTX_set1_curves_list curves); [|done].
  destruct (parseAlpnProtocols alpn) as [parsed|]; cycle 1.
  { intros Hctor. repeat (case_match; try done). }
  destruct ca, san, hash, chain; cbn; intros Hctor;
    repeat (case_match; try done); simplify_eq/=; repeat split; try done; eauto.
Qed.

(** What the server constructor adds to the base context. *)
Lemma ServerContextImpl_ctor_fields (config : ServerContextConfig)
    (srv : ServerContextImpl) :
  ServerContextImpl_ctor config = Ok srv →
  ∃ impl,
    ContextImpl_ctor (Config.base_config config) = Ok impl
    ∧ ssl_session_id_context (ctx_ (base srv)) = session_context impl
    ∧ ca_cert_ (base srv) = ca_cert_ impl
    ∧ verify_subject_alt_name_list_ (base srv) = verify_subject_alt_name_list_ impl
    ∧ verify_certificate_hash_ (base srv) = verify_certificate_hash_ impl
    ∧ parseSessionTicketKeys (Config.sessionTicketKeys config)
      = Ok (session_ticket_keys_ srv, ssl_tlsext_ticket_key_cb (ctx_ (base srv))).
Proof.
  unfold ServerContextImpl_ctor, mbind, Result_bind.
  destruct (ContextImpl_ctor (Config.base_config config)) as [impl|]; [|done].
  intros Hctor. exists impl.
  repeat (case_match; try done); simplify_eq/=; done.
Qed.

(** The server constructor keeps the mode of the base constructor, except
    that with a CA file it requires a client certificate when the
    configuration asks for one. *)
Lemma ServerContextImpl_verify_mode (config : ServerContextConfig)
    (srv : ServerContextImpl) :
  ServerContextImpl_ctor config = Ok srv →
  ∃ impl,
    ContextImpl_ctor (Config.base_config config) = Ok impl
    ∧ ssl_verify_mode (ctx_ (base srv))
      = (if negb (string_empty (Config.caCertFile (Config.base_config config)))
            && Config.requireClientCertificate config
         then Z.lor SSL_VERIFY_PEER SSL_VERIFY_FAIL_IF_NO_PEER_CERT
         else ssl_verify_mode (ctx_ impl)).
Proof.
  unfold ServerContextImpl_ctor, mbind, Result_bind.
  destruct (ContextImpl_ctor (Config.base_config config)) as [impl|]; [|done].
  intros Hctor. exists impl.
  repeat (case_match; try done); simplify_eq/=; done.
Qed.



Lemma fold_left_DigestUpdate (names : list string) (md : EVP_MD_CTX) :
  fold_left (λ md name, EVP_DigestUpdate md (bytes_of_string name)) names md
  = md ++ concat (bytes_of_string <$> names).
Proof.
  revert md. induction names as [|name names IH]; intros md; cbn.
  - by rewrite app_nil_r.
  - rewrite IH. unfold EVP_DigestUpdate. by rewrite <- app_assoc.
Qed.

(** C5. The session context of a server is the SHA-256 of the seed
    [envoy] followed, only when a CA certificate is configured, by the
    SHA-256 of the CA certificate, the bytes of every SAN pattern in list
    order and the bytes of the pinned hash (none when it is not set). It is
    32 bytes long, it is the digest of the seed alone without a CA
    certificate, and two constructions from the same CA file, SAN list and
    pinned hash give the same digest. *)
Theorem session_context_digest (config : ServerContextConfig) (srv : ServerContextImpl) :
  ServerContextImpl_ctor config = Ok srv →
  let ca := Config.caCertFile (Config.base_config config) in
  let san := Config.verifySubjectAltNameList (Config.base_config config) in
  let hash := Config.verifyCertificateHash (Config.base_config config) in
  let digest := ssl_session_id_context (ctx_ (base srv)) in
  ∃ pinned,
  (if string_empty hash then Ok [] else Hex_decode (erase_remove ":" hash)) = Ok pinned
  ∧ (ca ≠ "" →
   ∃ ca_cert, PEM_read_X509 ca = Some ca_cert
     ∧ digest = SHA256 (bytes_of_string "envoy" ++ SHA256 (x509_der ca_cert)
                        ++ concat (bytes_of_string <$> san) ++ pinned))
  ∧ (ca = "" → digest = SHA256 (bytes_of_string "envoy"))
  ∧ length digest = 32%nat
  ∧ (∀ config' srv',
       ServerContextImpl_ctor config' = Ok srv' →
       Config.caCertFile (Config.base_config config') = ca →
       Config.verifySubjectAltNameList (Config.base_config config') = san →
       Config.verifyCertificateHash (Config.base_config config') = hash →
       ssl_session_id_context (ctx_ (base srv')) = digest).
Proof.
  assert (∀ config srv, ServerContextImpl_ctor config = Ok srv →
    ∃ pinned,
      (if string_empty (Config.verifyCertificateHash (Config.base_config config))
       then Ok []
       else Hex_decode (erase_remove ":"
              (Config.verifyCertificateHash (Config.base_config config))))
      = Ok pinned
      ∧ ssl_session_id_context (ctx_ (base srv))
        = SHA256 (bytes_of_string "envoy" ++
            match (if string_empty (Config.caCertFile (Config.base_config config))
                   then None
                   else PEM_read_X509 (Config.caCertFile (Config.base_config config)))
            with
            | Some ca_cert =>
                SHA256 (x509_der ca_cert)
                ++ concat (bytes_of_string <$>
                     Config.verifySubjectAltNameList (Config.base_config config))
                ++ pinned
            | None => []
            end)) as Hdigest.
  { clear config srv. intros config srv Hctor.
    apply ServerContextImpl_ctor_fields in Hctor as (impl & Hbase & -> & _).
    apply ContextImpl_ctor_fields in Hbase as (_ & _ & Hca & _ & Hsan & Hhash & _).
    exists (verify_certificate_hash_ impl). split; [exact Hhash|].
    unfold session_context. rewrite Hca, Hsan.
    unfold EVP_DigestFinal, EVP_DigestInit, X509_digest. f_equal.
    destruct (if string_empty _ then None else PEM_read_X509 _) as [ca_cert|].
    - rewrite fold_left_DigestUpdate. unfold EVP_DigestUpdate.
      by rewrite app_nil_l, <- !app_assoc.
    - unfold EVP_DigestUpdate. by rewrite app_nil_l, app_nil_r. }
  intros Hctor. cbn zeta. destruct (Hdigest _ _ Hctor) as (pinned & Hpinned & Hsrv).
  exists pinned. split; [exact Hpinned|]. split; [|split; [|split]].
  - intros Hca.
    apply ServerContextImpl_ctor_fields in Hctor as (impl & Hbase & _).
    apply ContextImpl_ctor_fields in Hbase as (_ & _ & Hcert & Hsome & _).
    destruct (string_empty (Config.caCertFile (Config.base_config config))) eqn:Hempty.
    { by apply string_empty_spec in Hempty. }
    destruct (Hsome eq_refl) as [ca_cert Hca_cert].
    rewrite Hca_cert in Hcert. rewrite <- Hcert in Hsrv. eauto.
  - intros Hca. rewrite Hca in Hsrv. cbn [string_empty] in Hsrv.
    by rewrite app_nil_r in Hsrv.
  - rewrite Hsrv. apply SHA256_length.
  - intros config' srv' Hctor' Hca Hsan Hhash.
    destruct (Hdigest _ _ Hctor') as (pinned' & Hpinned' & Hsrv').
    rewrite Hca, Hsan, Hhash in *. rewrite Hpinned in Hpinned'.
    injection Hpinned' as <-. by rewrite Hsrv, Hsrv'.
Qed.

End Construction.



Lemma session_context_digest_witness :
  ∃ srv, @ServerContextImpl_ctor (Sample.library true)
           (Sample.server_config [Sample.blob 1 2 3]) = Ok srv
    ∧ length (ssl_session_id_context (ctx_ (base srv))) = 32%nat.
Proof.
  eexists. split; [vm_compute; reflexivity|].
  destruct (@session_context_digest (Sample.library true)
              (Sample.server_config [Sample.blob 1 2 3]) _ eq_refl)
    as (pinned & _ & _ & _ & Hlength & _).
  exact Hlength.
Defined.

(** ** Verification of a peer certificate *)

Section Verification.
Context `{Library}.

Lemma erase_remove_filter (ch : ascii) (s : string) :
  list_ascii_of_string (erase_remove ch s)
  = filter (λ c, c ≠ ch) (list_ascii_of_string s).
Proof.
  induction s as [|c s IH]; [done|].
  cbn [erase_remove list_ascii_of_string]. rewrite filter_cons.
  destruct (Ascii.eqb_spec c ch) as [->|Hne].
  - by rewrite decide_False by (intros Hne; by apply Hne).
  - rewrite decide_True by done. cbn [list_ascii_of_string]. by rewrite IH.
Qed.

(** C4. After the chain has been validated: with a non-empty SAN list
    that no entry of the certificate matches, the certificate is rejected
    (0) and the SAN counter alone is one higher, whatever the pinned hash.
    Otherwise, with a pinned hash set, it is rejected, and the hash counter
    alone is one higher, exactly when the SHA-256 of the encoded
    certificate differs from the pinned digest. Otherwise it is accepted
    (1) and no counter changes. A chain that fails validation makes the
    third counter alone one higher. The pinned digest of a constructed
    context is what [Hex::decode] returns for the configured string with
    every colon left out and the other characters kept in order. *)
Theorem verifyCertificate_outcome (impl : ContextImpl) (cert : X509) (stats_ : SslStats) :
  let san := verify_subject_alt_name_list_ impl in
  let pinned := verify_certificate_hash_ impl in
  let san_ok := san = [] ∨ verifySubjectAltName cert san = true in
  let san_mismatch :=
    {| fail_verify_error_ := fail_verify_error_ stats_;
       fail_verify_san_ := S (fail_verify_san_ stats_);
       fail_verify_cert_hash_ := fail_verify_cert_hash_ stats_ |} in
  let hash_mismatch :=
    {| fail_verify_error_ := fail_verify_error_ stats_;
       fail_verify_san_ := fail_verify_san_ stats_;
       fail_verify_cert_hash_ := S (fail_verify_cert_hash_ stats_) |} in
  let chain_invalid :=
    {| fail_verify_error_ := S (fail_verify_error_ stats_);
       fail_verify_san_ := fail_verify_san_ stats_;
       fail_verify_cert_hash_ := fail_verify_cert_hash_ stats_ |} in
  (san ≠ [] → verifySubjectAltName cert san = false →
   verifyCertificate impl cert stats_ = (0, san_mismatch))
  ∧ (san_ok → pinned ≠ [] →
     (verifyCertificate impl cert stats_ = (0, hash_mismatch)
      ↔ SHA256 (x509_der cert) ≠ pinned)
     ∧ (verifyCertificate impl cert stats_ = (1, stats_)
        ↔ SHA256 (x509_der cert) = pinned))
  ∧ (san_ok → pinned = [] → verifyCertificate impl cert stats_ = (1, stats_))
  ∧ (∀ ret, 0 < ret →
       verifyCallback impl ret cert stats_ = verifyCertificate impl cert stats_)
  ∧ (∀ ret, ret ≤ 0 →
       verifyCallback impl ret cert stats_ = (ret, chain_invalid))
  ∧ (∀ config, ContextImpl_ctor config = Ok impl →
       Config.verifyCertificateHash config ≠ "" →
       ∃ stripped,
         list_ascii_of_string stripped
         = filter (λ c, c ≠ ":"%char)
             (list_ascii_of_string (Config.verifyCertificateHash config))
         ∧ Hex_decode stripped = Ok pinned).
Proof.
  cbn zeta. unfold verifyCertificate, verifyCertificateHash, X509_digest.
  split; [|split; [|split; [|split; [|split]]]].
  - intros Hsan ->. by destruct (verify_subject_alt_name_list_ impl).
  - intros Hsan Hpinned.
    replace (negb (vector_empty (verify_subject_alt_name_list_ impl))
             && negb (verifySubjectAltName cert (verify_subject_alt_name_list_ impl)))
      with false by (destruct Hsan as [-> | ->]; [done|by rewrite andb_false_r]).
    destruct (verify_certificate_hash_ impl) as [|b pinned] eqn:Hhash; [done|].
    cbn [vector_empty negb andb]. case_bool_decide as Heq; cbn [negb].
    + split; split; first [done | intros [=]].
    + split; split; first [done | intros [=]].
  - intros Hsan ->.
    replace (negb (vector_empty (verify_subject_alt_name_list_ impl))
             && negb (verifySubjectAltName cert (verify_subject_alt_name_list_ impl)))
      with false by (destruct Hsan as [-> | ->]; [done|by rewrite andb_false_r]).
    done.
  - intros ret Hret. unfold verifyCallback.
    by rewrite (proj2 (Z.leb_gt _ _)) by lia.
  - intros ret Hret. unfold verifyCallback.
    by rewrite (proj2 (Z.leb_le _ _)) by lia.
  - intros config Hctor Hhash.
    apply ContextImpl_ctor_fields in Hctor as (_ & _ & _ & _ & _ & Hpinned & _).
    exists (erase_remove ":" (Config.verifyCertificateHash config)).
    split; [apply erase_remove_filter|].
    by destruct (Config.verifyCertificateHash config).
Qed.

End Verification.

Lemma verifyCertificate_outcome_witness :
  @verifyCertificate (Sample.library true) Sample.impl
     (Sample.cert_with (Some [Sample.dns "api.foo.com"])) Sample.stats0
  = (1, Sample.stats0)
  ∧ @verifyCertificate (Sample.library true) Sample.impl
     (Sample.cert_with (Some [Sample.dns "www.foo.com"])) Sample.stats0
    = (0, {| fail_verify_error_ := 0; fail_verify_san_ := 1;
             fail_verify_cert_hash_ := 0 |})
  ∧ @verifyCertificate (Sample.library true) (Sample.impl_with [] (replicate 32 7))
     (Sample.cert_with None) Sample.stats0
    = (0, {| fail_verify_error_ := 0; fail_verify_san_ := 0;
             fail_verify_cert_hash_ := 1 |})
  ∧ @verifyCallback (Sample.library true) Sample.impl 0
     (Sample.cert_with (Some [Sample.dns "api.foo.com"])) Sample.stats0
    = (0, {| fail_verify_error_ := 1; fail_verify_san_ := 0;
             fail_verify_cert_hash_ := 0 |})
  ∧ @Hex_decode (Sample.library true)
      "3082030a00000000000000000000000000000000000000000000000000000000"
    = Ok (verify_certificate_hash_ Sample.impl).
Proof.
  split; [|split; [|split; [|split]]].
  - destruct (@verifyCertificate_outcome (Sample.library true) Sample.impl
                (Sample.cert_with (Some [Sample.dns "api.foo.com"])) Sample.stats0)
      as (_ & Hpinned & _).
    apply Hpinned; [right; reflexivity|discriminate|reflexivity].
  - destruct (@verifyCertificate_outcome (Sample.library true) Sample.impl
                (Sample.cert_with (Some [Sample.dns "www.foo.com"])) Sample.stats0)
      as (Hsan & _).
    apply Hsan; [discriminate|reflexivity].
  - destruct (@verifyCertificate_outcome (Sample.library true)
                (Sample.impl_with [] (replicate 32 7))
                (Sample.cert_with None) Sample.stats0)
      as (_ & Hpinned & _).
    apply Hpinned; [left; reflexivity|discriminate|discriminate].
  - destruct (@verifyCertificate_outcome (Sample.library true) Sample.impl
                (Sample.cert_with (Some [Sample.dns "api.foo.com"])) Sample.stats0)
      as (_ & _ & _ & _ & Hchain & _).
    apply (Hchain 0). lia.
  - destruct (@verifyCertificate_outcome (Sample.library true) Sample.impl
                (Sample.cert_with (Some [Sample.dns "api.foo.com"])) Sample.stats0)
      as (_ & _ & _ & _ & _ & Hdecode).
    destruct (Hdecode Sample.config eq_refl ltac:(discriminate))
      as (stripped & Hstripped & Hdecoded).
    replace stripped
      with "3082030a00000000000000000000000000000000000000000000000000000000"
      in Hdecoded; [exact Hdecoded|].
    rewrite <- (string_of_list_ascii_of_string stripped), Hstripped. reflexivity.
Defined.

Lemma verifySubjectAltName_without_names_witness :
  @verifyCertificate (Sample.library true) Sample.impl
     (Sample.cert_with (Some [Sample.ipadd "10.0.0.1"])) Sample.stats0
  = (0, {| fail_verify_error_ := 0; fail_verify_san_ := 1;
           fail_verify_cert_hash_ := 0 |}).
Proof.
  apply (@verifySubjectAltName_without_names (Sample.library true) Sample.impl
           (Sample.cert_with (Some [Sample.ipadd "10.0.0.1"])) Sample.stats0).
  - discriminate.
  - right. eexists. split; [reflexivity|].
    constructor; [|constructor]. split; discriminate.
Defined.

(** ** Session ticket keys *)

Section TicketKeys.

Lemma copy_SessionTicketKey_split (src_key : list uint8_t) :
  length src_key = sizeof_SessionTicketKey →
  let key := copy_SessionTicketKey src_key in
  length (name key) = 16%nat ∧ length (hmac_key key) = 32%nat
  ∧ length (aes_key key) = 32%nat
  ∧ name key ++ hmac_key key ++ aes_key key = src_key.
Proof.
  intros Hlen. unfold copy_SessionTicketKey.
  cbn [name hmac_key aes_key]. unfold sizeof_SessionTicketKey, hmac_key_size,
    aes_key_size, SSL_TICKET_KEY_NAME_LEN in *.
  rewrite !length_take, !length_drop. repeat split; try lia.
  change (16 + 32)%nat with 48%nat.
  transitivity (take 16 src_key ++ drop 16 src_key); [|apply take_drop]. f_equal.
  transitivity (take 32 (drop 16 src_key) ++ drop 32 (drop 16 src_key));
    [|apply take_drop]. f_equal.
  rewrite drop_drop. change (16 + 32)%nat with 48%nat.
  apply take_ge. rewrite length_drop. lia.
Qed.

Lemma sessionTicketKeys_body_at (blobs : list (list uint8_t))
    (keys : list SessionTicketKey) (i : nat) src_key old :
  blobs !! i = Some src_key → keys !! i = Some old →
  sessionTicketKeys_body blobs keys i
  = if bool_decide (length src_key ≠ sizeof_SessionTicketKey)
    then Throw (ticket_key_length_error i (length src_key))
    else Ok (<[i := copy_SessionTicketKey src_key]> keys).
Proof. intros Hsrc Hdst. unfold sessionTicketKeys_body. by rewrite Hsrc, Hdst. Qed.

(** The loop invariant: the keys of the blobs in [done] are in place, the
    rest of the vector is as [resize] left it. *)
Lemma sessionTicketKeys_loop (blobs : list (list uint8_t)) :
  ∀ (rest done : list (list uint8_t)),
    blobs = done ++ rest →
    for_each (sessionTicketKeys_body blobs)
      ((copy_SessionTicketKey <$> done) ++ replicate (length rest) SessionTicketKey_zero)
      (seq (length done) (length rest))
    = match list_find (λ src_key, length src_key ≠ sizeof_SessionTicketKey) rest with
      | Some (i, src_key) =>
          Throw (ticket_key_length_error (length done + i) (length src_key))
      | None => Ok (copy_SessionTicketKey <$> blobs)
      end.
Proof.
  intros rest. induction rest as [|src_key rest IH]; intros done Hblobs.
  - cbn. by rewrite Hblobs, !app_nil_r.
  - cbn [length seq replicate]. rewrite for_each_cons.
    rewrite (sessionTicketKeys_body_at _ _ _ src_key SessionTicketKey_zero);
      [|by rewrite Hblobs, list_lookup_middle
       |by rewrite list_lookup_middle by (by rewrite length_fmap)].
    cbn [list_find]. unfold decide_rel. destruct (decide _) as [Hbad|Hgood].
    + rewrite bool_decide_eq_true_2 by done. cbn. by rewrite Nat.add_0_r.
    + rewrite bool_decide_eq_false_2 by done. unfold mbind at 1, Result_bind.
      replace (<[length done:=copy_SessionTicketKey src_key]>
                 ((copy_SessionTicketKey <$> done)
                  ++ SessionTicketKey_zero :: replicate (length rest) SessionTicketKey_zero))
        with ((copy_SessionTicketKey <$> done ++ [src_key])
              ++ replicate (length rest) SessionTicketKey_zero).
      2:{ rewrite fmap_app, <- app_assoc.
          replace (length done) with (length (copy_SessionTicketKey <$> done) + 0)%nat
            at 1 by (rewrite length_fmap; lia).
          by rewrite insert_app_r. }
      specialize (IH (done ++ [src_key])). rewrite length_app in IH.
      cbn [length] in IH. replace (length done + 1)%nat with (S (length done)) in IH by lia.
      rewrite IH by (by rewrite <- app_assoc).
      destruct (list_find _ rest) as [[i bad]|]; cbn; [|done].
      do 2 f_equal. lia.
Qed.

Lemma sessionTicketKeys_loop_all (blobs : list (list uint8_t)) :
  for_each (sessionTicketKeys_body blobs)
    (replicate (length blobs) SessionTicketKey_zero) (seq 0 (length blobs))
  = match list_find (λ src_key, length src_key ≠ sizeof_SessionTicketKey) blobs with
    | Some (i, src_key) => Throw (ticket_key_length_error i (length src_key))
    | None => Ok (copy_SessionTicketKey <$> blobs)
    end.
Proof. exact (sessionTicketKeys_loop blobs blobs [] eq_refl). Qed.

Lemma parseSessionTicketKeys_spec (blobs : list (list uint8_t)) :
  parseSessionTicketKeys blobs
  = match list_find (λ src_key, length src_key ≠ sizeof_SessionTicketKey) blobs with
    | Some (i, src_key) => Throw (ticket_key_length_error i (length src_key))
    | None => Ok (copy_SessionTicketKey <$> blobs, negb (vector_empty blobs))
    end.
Proof.
  unfold parseSessionTicketKeys. destruct blobs as [|blob blobs]; [done|].
  cbn [vector_empty negb].
  rewrite sessionTicketKeys_loop_all.
  by destruct (list_find _ _) as [[i bad]|].
Qed.

(** C7. Parsing the configured ticket keys throws exactly when some blob
    is not 80 bytes long; the message of the exception gives the index of
    the first such blob, its length, and the expected length 80. When every
    blob is 80 bytes long, the keys are the blobs in order, each split into
    its first 16 bytes (the name), the next 32 (the HMAC key) and the last
    32 (the AES key). *)
Theorem parseSessionTicketKeys_length (blobs : list (list uint8_t)) :
  match parseSessionTicketKeys blobs with
  | Ok (keys, _) =>
      Forall (λ src_key, length src_key = 80%nat) blobs
      ∧ Forall2 (λ src_key key,
                   name key = take 16 src_key
                   ∧ hmac_key key = take 32 (drop 16 src_key)
                   ∧ aes_key key = take 32 (drop 48 src_key)
                   ∧ length (name key) = 16%nat
                   ∧ length (hmac_key key) = 32%nat
                   ∧ length (aes_key key) = 32%nat
                   ∧ name key ++ hmac_key key ++ aes_key key = src_key)
          blobs keys
  | Throw e =>
      ∃ i src_key,
        blobs !! i = Some src_key
        ∧ length src_key ≠ 80%nat
        ∧ (∀ j other, (j < i)%nat → blobs !! j = Some other → length other = 80%nat)
        ∧ e = EnvoyException
                ("Incorrect TLS session ticket key length.  Index " +:+ pretty i
                 +:+ ", length " +:+ pretty (length src_key)
                 +:+ ", expected length 80.")
  end.
Proof.
  rewrite parseSessionTicketKeys_spec.
  destruct (list_find _ blobs) as [[i bad]|] eqn:Hfind.
  - apply list_find_Some in Hfind as (Hi & Hbad & Hfirst).
    exists i, bad. split; [done|]. split; [done|]. split; [|done].
    intros j other Hj Hother.
    destruct (decide (length other = sizeof_SessionTicketKey)) as [|Hne]; [done|].
    by destruct (Hfirst j other Hother Hj).
  - apply list_find_None in Hfind.
    assert (Forall (λ src_key, length src_key = 80%nat) blobs) as Hall.
    { eapply Forall_impl; [exact Hfind|]. intros src_key Hlen. cbn in Hlen.
      destruct (decide (length src_key = sizeof_SessionTicketKey)); [done|].
      by destruct Hlen. }
    split; [done|]. apply Forall2_fmap_r, Forall_Forall2_diag.
    eapply Forall_impl; [exact Hall|]. intros src_key Hlen.
    pose proof (copy_SessionTicketKey_split src_key Hlen) as Hsplit.
    cbn zeta in Hsplit. by repeat split; try apply Hsplit.
Qed.

Lemma parseSessionTicketKeys_length_witness :
  ∃ keys, parseSessionTicketKeys [Sample.blob 1 2 3; Sample.blob 7 4 5] = Ok (keys, true)
    ∧ Forall2 (λ src_key key, name key ++ hmac_key key ++ aes_key key = src_key)
        [Sample.blob 1 2 3; Sample.blob 7 4 5] keys.
Proof.
  pose proof (parseSessionTicketKeys_length [Sample.blob 1 2 3; Sample.blob 7 4 5])
    as Hkeys.
  destruct (parseSessionTicketKeys [Sample.blob 1 2 3; Sample.blob 7 4 5])
    as [[keys cb]|e] eqn:Hparse.
  - injection Hparse as <- <-. eexists. split; [reflexivity|].
    destruct Hkeys as [_ Hsplit].
    eapply Forall2_impl; [exact Hsplit|]. intros src_key key Hkey. apply Hkey.
  - discriminate Hparse.
Defined.

End TicketKeys.

(** ** Certificate expiry *)

Section Expiry.
Context `{Library}.

Lemma getDaysUntilExpiration_int (cert : option X509) :
  INT_MIN ≤ getDaysUntilExpiration cert ≤ INT_MAX.
Proof.
  unfold getDaysUntilExpiration. destruct cert as [c|]; [|done].
  destruct (ASN1_TIME_diff (x509_notAfter c)) as [[days seconds]|] eqn:Hdiff; [|done].
  by eapply ASN1_TIME_diff_int.
Qed.


End Expiry.



(** ** Session ticket processing *)

Section Tickets.
Context `{Library}.

Lemma decrypt_loop_none (keys : list SessionTicketKey) (is_enc_key : bool)
    (args : TicketArgs) :
  Forall (λ key, name_equal key (key_name args) = false) keys →
  decrypt_loop keys is_enc_key args = (0, args).
Proof.
  intros Hnone. revert is_enc_key.
  induction Hnone as [|key keys Hkey _ IH]; intros is_enc_key; [done|].
  cbn [decrypt_loop]. by rewrite Hkey.
Qed.

(** The loop stops at the first key whose name matches; only the key at
    index 0 is the encryption key. *)
Lemma decrypt_loop_first (keys : list SessionTicketKey) (is_enc_key : bool)
    (args : TicketArgs) (i : nat) (Ki : SessionTicketKey) :
  keys !! i = Some Ki →
  name_equal Ki (key_name args) = true →
  (∀ j Kj, (j < i)%nat → keys !! j = Some Kj → name_equal Kj (key_name args) = false) →
  decrypt_loop keys is_enc_key args
  = decrypt_with Ki (if decide (i = 0%nat) then is_enc_key else false) args.
Proof.
  revert i is_enc_key. induction keys as [|key keys IH]; intros i is_enc_key Hi Hmatch Hfirst.
  - done.
  - destruct i as [|i]; cbn [decrypt_loop].
    + injection Hi as ->. by rewrite Hmatch.
    + rewrite (Hfirst 0%nat key) by (done || lia).
      rewrite (IH i false); [by destruct (decide (i = 0%nat))|done..|].
      intros j Kj Hj HKj. apply (Hfirst (S j)); [lia|done].
Qed.

(** C2, as amended. Encrypt fails with -1 on an empty key list; otherwise
    it uses the first key only: it writes that key's name and the random IV
    into the ticket, fails with -1 when the cipher or the HMAC cannot be
    initialised, and else returns 1 with both initialised from that key.
    Decrypt returns 0 when no key has the ticket's name. Otherwise it takes
    the first key in list order that has the name, returns -1 when the HMAC
    or the cipher cannot be initialised with it, and else returns 1 when
    that key is the first of the list and 2 when it is a later one, with
    both initialised from that key. *)
Theorem sessionTicketProcess_keys (impl : ServerContextImpl) (args : TicketArgs)
    (rand : list uint8_t) :
  let keys := session_ticket_keys_ impl in
  (keys = [] → sessionTicketProcess impl args rand 1 = (-1, args))
  ∧ (∀ K0 rest, keys = K0 :: rest →
       let result := sessionTicketProcess impl args rand 1 in
       key_name result.2 = take SSL_TICKET_KEY_NAME_LEN (name K0)
       ∧ iv result.2 = rand
       ∧ (EVP_EncryptInit_ex (aes_key K0) rand = false
          ∨ HMAC_Init_ex (hmac_key K0) = false → result.1 = -1)
       ∧ (EVP_EncryptInit_ex (aes_key K0) rand = true →
          HMAC_Init_ex (hmac_key K0) = true →
          result = (1, {| key_name := take SSL_TICKET_KEY_NAME_LEN (name K0);
                          iv := rand;
                          ctx := Some {| cipher_encrypt := true;
                                         cipher_key := aes_key K0;
                                         cipher_iv := rand |};
                          hmac_ctx := Some (hmac_key K0) |})))
  ∧ (∀ encrypt, encrypt ≠ 1 →
       (Forall (λ key, name_equal key (key_name args) = false) keys →
        sessionTicketProcess impl args rand encrypt = (0, args))
       ∧ (∀ i Ki,
            keys !! i = Some Ki →
            name_equal Ki (key_name args) = true →
            (∀ j Kj, (j < i)%nat → keys !! j = Some Kj →
                     name_equal Kj (key_name args) = false) →
            let result := sessionTicketProcess impl args rand encrypt in
            (HMAC_Init_ex (hmac_key Ki) = false
             ∨ EVP_DecryptInit_ex (aes_key Ki) (iv args) = false → result.1 = -1)
            ∧ (HMAC_Init_ex (hmac_key Ki) = true →
               EVP_DecryptInit_ex (aes_key Ki) (iv args) = true →
               result = (if decide (i = 0%nat) then 1 else 2,
                         {| key_name := key_name args;
                            iv := iv args;
                            ctx := Some {| cipher_encrypt := false;
                                           cipher_key := aes_key Ki;
                                           cipher_iv := iv args |};
                            hmac_ctx := Some (hmac_key Ki) |}))))
  ∧ (∀ key, length (name key) = length (key_name args) →
       name_equal key (key_name args) = true ↔ name key = key_name args).
Proof.
  cbn zeta. split; [|split; [|split]].
  - intros Hkeys. unfold sessionTicketProcess. by rewrite Hkeys.
  - intros K0 rest Hkeys. unfold sessionTicketProcess. rewrite Hkeys.
    cbn [Z.eqb Pos.eqb iv key_name].
    destruct (EVP_EncryptInit_ex (aes_key K0) rand),
      (HMAC_Init_ex (hmac_key K0)); cbn; repeat split; try done;
      intros; destruct_or?; done.
  - intros encrypt Hencrypt. unfold sessionTicketProcess.
    rewrite (proj2 (Z.eqb_neq _ _)) by done. split.
    + apply decrypt_loop_none.
    + intros i Ki Hi Hmatch Hfirst.
      rewrite (decrypt_loop_first _ _ _ i Ki) by done. unfold decrypt_with.
      cbn [iv key_name ctx hmac_ctx].
      destruct (HMAC_Init_ex (hmac_key Ki)),
        (EVP_DecryptInit_ex (aes_key Ki) (iv args)); cbn; repeat split; try done;
        try (intros; destruct_or?; done).
      intros _ _. by destruct (decide (i = 0%nat)).
  - intros key Hlen. unfold name_equal. rewrite Hlen, firstn_all.
    apply bool_decide_eq_true.
Qed.

End Tickets.

Lemma sessionTicketProcess_keys_witness :
  @sessionTicketProcess (Sample.library true)
     (Sample.server [Sample.blob 1 2 3; Sample.blob 7 4 5]) (Sample.ticket 7) [] 0
  = (2, {| key_name := replicate 16 7;
           iv := replicate 16 9;
           ctx := Some {| cipher_encrypt := false;
                          cipher_key := replicate 32 5;
                          cipher_iv := replicate 16 9 |};
           hmac_ctx := Some (replicate 32 4) |}).
Proof.
  destruct (@sessionTicketProcess_keys (Sample.library true)
              (Sample.server [Sample.blob 1 2 3; Sample.blob 7 4 5]) (Sample.ticket 7) [])
    as (_ & _ & Hdecrypt & _).
  destruct (Hdecrypt 0 ltac:(discriminate)) as [_ Hfound].
  apply (Hfound 1%nat (copy_SessionTicketKey (Sample.blob 7 4 5)));
    [reflexivity|reflexivity| |reflexivity|reflexivity].
  intros [|j] Kj Hj HKj; [|lia]. injection HKj as <-. reflexivity.
Defined.

(** C2 as stated fails. With two keys of the same name, a ticket carrying
    the name of the second key is decrypted with the first key and without
    rotation; and when the HMAC cannot be initialised, a ticket carrying the
    name of the first key is not accepted. *)
Lemma sessionTicketProcess_not_by_position :
  parseSessionTicketKeys [Sample.blob 1 2 3; Sample.blob 1 4 5]
  = Ok (session_ticket_keys_ (Sample.server [Sample.blob 1 2 3; Sample.blob 1 4 5]), true)
  ∧ (∃ K1, session_ticket_keys_ (Sample.server [Sample.blob 1 2 3; Sample.blob 1 4 5]) !! 1%nat
           = Some K1
       ∧ name K1 = key_name (Sample.ticket 1)
       ∧ hmac_key K1 = replicate 32 4 ∧ aes_key K1 = replicate 32 5)
  ∧ @sessionTicketProcess (Sample.library true)
       (Sample.server [Sample.blob 1 2 3; Sample.blob 1 4 5]) (Sample.ticket 1) [] 0
    = (1, {| key_name := replicate 16 1;
             iv := replicate 16 9;
             ctx := Some {| cipher_encrypt := false;
                            cipher_key := replicate 32 3;
                            cipher_iv := replicate 16 9 |};
             hmac_ctx := Some (replicate 32 2) |})
  ∧ @sessionTicketProcess (Sample.library false)
       (Sample.server [Sample.blob 1 2 3]) (Sample.ticket 1) [] 0
    = (-1, Sample.ticket 1).
Proof.
  split; [reflexivity|]. split; [|split; reflexivity].
  eexists. split; [reflexivity|]. repeat split; reflexivity.
Qed.


(** * Further properties *)

(** ** ALPN parsing: sizes and the way back *)

Section AlpnMore.
Import Wire Unwire.

Lemma parseAlpnProtocols_nil (alpn_protocols : string) (out : list uint8_t) :
  parseAlpnProtocols alpn_protocols = Ok out → out = [] ↔ alpn_protocols = "".
Proof.
  rewrite parseAlpnProtocols_spec.
  destruct (string_empty alpn_protocols) eqn:Hempty.
  { apply string_empty_spec in Hempty as ->. by intros [= <-]. }
  destruct (_ >=? _); [done|]. destruct (forallb _ _); [|done]. intros [= <-].
  split.
  - intros Hnil. apply (f_equal length) in Hnil.
    by rewrite length_encode_names_split in Hnil.
  - intros ->. done.
Qed.

(** X1. An accepted string of [n > 0] bytes is encoded in [n + 1] bytes;
    the encoding is empty only for the empty string. *)
Theorem parseAlpnProtocols_length (alpn_protocols : string) (out : list uint8_t) :
  parseAlpnProtocols alpn_protocols = Ok out →
  length out = (if string_empty alpn_protocols then 0
                else S (String.length alpn_protocols))%nat
  ∧ (out = [] ↔ alpn_protocols = "").
Proof.
  intros Hparse. split; [|by eapply parseAlpnProtocols_nil].
  revert Hparse. rewrite parseAlpnProtocols_spec.
  destruct (string_empty alpn_protocols); [by intros [= <-]|].
  destruct (_ >=? _); [done|]. destruct (forallb _ _); [|done]. intros [= <-].
  by rewrite length_encode_names_split.
Qed.

Lemma parseAlpnProtocols_length_witness :
  length [2; 104; 50; 8; 104; 116; 116; 112; 47; 49; 46; 49]
  = S (String.length "h2,http/1.1").
Proof.
  apply (parseAlpnProtocols_length "h2,http/1.1"). reflexivity.
Defined.

Lemma join_split_comma (s : string) : join_comma (split_comma s) = s.
Proof.
  induction s as [|c s IH]; [done|].
  cbn [split_comma]. destruct (split_comma_cons s) as (h & t & Hs).
  rewrite Hs in *. destruct (Ascii.eqb_spec c ",") as [->|_].
  - change (join_comma ("" :: h :: t)) with ("" +:+ "," +:+ join_comma (h :: t)).
    by rewrite IH.
  - destruct t as [|h' t].
    + by rewrite <- IH.
    + change (join_comma (String c h :: h' :: t))
        with (String c (h +:+ "," +:+ join_comma (h' :: t))).
      by rewrite <- IH.
Qed.

Lemma string_of_bytes_of_string (s : string) :
  string_of_bytes (bytes_of_string s) = s.
Proof.
  unfold string_of_bytes, bytes_of_string. rewrite <- list_fmap_compose.
  rewrite <- (string_of_list_ascii_of_string s) at 2. f_equal.
  rewrite <- (list_fmap_id (list_ascii_of_string s)) at 2.
  apply list_fmap_ext. intros _ c _. cbn.
  unfold uint8_to_char, char_to_uint8. by rewrite N2Z.id, ascii_N_embedding.
Qed.

(** X2. Reading an accepted encoding back (the entries, joined with
    commas) gives the configured string; so two different strings are never
    encoded alike. *)
Theorem parseAlpnProtocols_round_trip (alpn_protocols : string) (out : list uint8_t) :
  parseAlpnProtocols alpn_protocols = Ok out →
  names_of_wire out = Some alpn_protocols
  ∧ ∀ other, parseAlpnProtocols other = Ok out → other = alpn_protocols.
Proof.
  assert (∀ s out, parseAlpnProtocols s = Ok out → names_of_wire out = Some s)
    as Hback.
  { clear. intros s out. rewrite parseAlpnProtocols_spec.
    destruct (string_empty s) eqn:Hempty.
    { apply string_empty_spec in Hempty as ->. by intros [= <-]. }
    repeat case_match; try done. intros [= <-].
    unfold names_of_wire. rewrite decode_encode. cbn.
    rewrite <- list_fmap_compose. f_equal.
    rewrite <- (join_split_comma s) at 2. f_equal.
    rewrite <- (list_fmap_id (split_comma s)) at 2.
    apply list_fmap_ext. intros _ p _. cbn. apply string_of_bytes_of_string. }
  intros Hparse. split; [by apply Hback|].
  intros other Hother. apply Hback in Hparse, Hother. congruence.
Qed.

Lemma parseAlpnProtocols_round_trip_witness :
  names_of_wire [2; 104; 50; 8; 104; 116; 116; 112; 47; 49; 46; 49]
  = Some "h2,http/1.1".
Proof.
  apply (parseAlpnProtocols_round_trip "h2,http/1.1"). reflexivity.
Defined.

Lemma split_comma_length_le (s : string) :
  Forall (λ p, String.length p ≤ String.length s)%nat (split_comma s).
Proof.
  induction s as [|c s IH]; [by repeat constructor|].
  cbn [split_comma]. destruct (split_comma_cons s) as (h & t & Hs).
  rewrite Hs in *. apply Forall_cons in IH as [Hh Ht].
  assert (Forall (λ p, String.length p ≤ String.length (String c s))%nat t).
  { eapply Forall_impl; [exact Ht|]. intros p Hp. cbn in *. lia. }
  destruct (Ascii.eqb c ",").
  - constructor; [cbn; lia|]. constructor; [cbn; lia|done].
  - constructor; [cbn; lia|done].
Qed.

(** X3. A string of at most 255 bytes is never rejected. *)
Theorem parseAlpnProtocols_short_accepted (alpn_protocols : string) :
  (String.length alpn_protocols ≤ 255)%nat →
  ∃ out, parseAlpnProtocols alpn_protocols = Ok out.
Proof.
  intros Hlen. rewrite parseAlpnProtocols_spec.
  destruct (string_empty alpn_protocols); [by eauto|].
  rewrite Z.geb_leb, (proj2 (Z.leb_gt _ _)) by lia.
  replace (forallb name_fits (split_comma alpn_protocols)) with true; [by eauto|].
  symmetry. apply forallb_forall. intros p Hp%list_elem_of_In.
  pose proof (split_comma_length_le alpn_protocols) as Hle.
  rewrite Forall_forall in Hle. specialize (Hle p Hp).
  unfold name_fits. apply bool_decide_eq_true. lia.
Qed.

Lemma parseAlpnProtocols_short_accepted_witness :
  ∃ out, parseAlpnProtocols "a,,b" = Ok out.
Proof.
  apply (parseAlpnProtocols_short_accepted "a,,b"). cbn. lia.
Defined.

End AlpnMore.

(** ** Subject alternative names: the whole loop *)

Section SubjectAltNameMore.

Lemma altnames_loop_existsb (subject_alt_names : list string)
    (altnames : list GENERAL_NAME) (verified : bool) :
  altnames_loop subject_alt_names altnames verified
  = verified || existsb (altname_verified subject_alt_names) altnames.
Proof.
  revert verified. induction altnames as [|altname altnames IH]; intros verified.
  - by rewrite orb_false_r.
  - cbn [altnames_loop existsb]. destruct verified; [done|]. by rewrite IH.
Qed.

(** X4. [verifySubjectAltName] succeeds exactly when the certificate has
    the extension and one of its entries is verified by the configured
    names, wherever the entry stands; with no configured name it fails. *)
Theorem verifySubjectAltName_iff (cert : X509) (subject_alt_names : list string) :
  (verifySubjectAltName cert subject_alt_names = true
   ↔ ∃ altnames altname,
       x509_altnames cert = Some altnames
       ∧ altname ∈ altnames
       ∧ altname_verified subject_alt_names altname = true)
  ∧ verifySubjectAltName cert [] = false.
Proof.
  unfold verifySubjectAltName. split.
  - destruct (x509_altnames cert) as [altnames|].
    + rewrite altnames_loop_existsb, orb_false_l, existsb_exists. split.
      * intros (altname & Hin%list_elem_of_In & Hverified). eauto.
      * intros (? & altname & [= <-] & Hin%list_elem_of_In & Hverified). eauto.
    + split; [done|]. by intros (? & ? & ? & _).
  - destruct (x509_altnames cert) as [altnames|]; [|done].
    rewrite altnames_loop_existsb, orb_false_l.
    induction altnames as [|altname altnames IH]; [done|].
    cbn [existsb]. rewrite IH, orb_false_r. unfold altname_verified.
    by repeat case_match.
Qed.

Lemma verifySubjectAltName_iff_witness :
  verifySubjectAltName
    (Sample.cert_with (Some [Sample.ipadd "10.0.0.1"; Sample.dns "api.foo.com"]))
    ["api.foo.com"] = true.
Proof.
  apply (verifySubjectAltName_iff
           (Sample.cert_with (Some [Sample.ipadd "10.0.0.1"; Sample.dns "api.foo.com"]))
           ["api.foo.com"]).
  exists [Sample.ipadd "10.0.0.1"; Sample.dns "api.foo.com"], (Sample.dns "api.foo.com").
  split; [reflexivity|]. split; [|reflexivity].
  apply elem_of_cons. right. apply elem_of_cons. by left.
Defined.

(** X5. A URI entry is verified only by a configured name equal to it: no
    wildcard is read in a URI entry. *)
Theorem altname_verified_uri (subject_alt_names : list string) (altname : GENERAL_NAME) :
  gn_type altname = GEN_URI →
  altname_verified subject_alt_names altname = true
  ↔ c_str (gn_data altname) ∈ subject_alt_names.
Proof.
  intros Htype. unfold altname_verified. rewrite Htype. cbn [Z.eqb GEN_URI GEN_DNS Pos.eqb].
  rewrite any_config_san_true. split.
  - intros (config_san & Hin & Heq%String.eqb_eq). by subst.
  - intros Hin. eexists. split; [exact Hin|]. apply String.eqb_refl.
Qed.

Lemma altname_verified_uri_witness :
  altname_verified ["*.example.com"] (Sample.uri "*.example.com") = true.
Proof.
  apply (altname_verified_uri ["*.example.com"] (Sample.uri "*.example.com"));
    [reflexivity|].
  apply elem_of_cons. by left.
Defined.

(** X6. A presented DNS entry that does not start with [*.] matches a
    configured name only when the two are equal. *)
Theorem dNSNameMatch_no_wildcard (dNSName pattern : string) :
  (∀ suffix, pattern ≠ "*." +:+ suffix) →
  dNSNameMatch dNSName pattern = true ↔ dNSName = pattern.
Proof.
  intros Hplain. rewrite dNSNameMatch_true. split; [|by left].
  intros [?|(prefix & suffix & _ & Hpattern & _)]; [done|].
  by destruct (Hplain suffix).
Qed.

Lemma dNSNameMatch_no_wildcard_witness :
  dNSNameMatch "www.example.com" "example.com" ≠ true.
Proof.
  intros Hmatch.
  apply (dNSNameMatch_no_wildcard "www.example.com" "example.com") in Hmatch;
    [discriminate Hmatch|].
  intros suffix. discriminate.
Defined.

Lemma c_str_append_zero (name rest : string) :
  c_str (name +:+ String zero rest) = c_str name.
Proof.
  induction name as [|c name IH].
  - rewrite append_nil_l. cbn [c_str]. by rewrite Ascii.eqb_refl.
  - rewrite append_cons. cbn [c_str]. by rewrite IH.
Qed.

(** X7. Of an entry's data only the bytes before the first NUL are
    compared: an entry whose data continues after a NUL is verified exactly
    as the entry cut there. *)
Theorem altname_verified_nul (subject_alt_names : list string) (type : Z)
    (name rest : string) :
  altname_verified subject_alt_names
    {| gn_type := type; gn_data := name +:+ String zero rest |}
  = altname_verified subject_alt_names {| gn_type := type; gn_data := name |}.
Proof.
  unfold altname_verified. cbn [gn_type gn_data]. by rewrite c_str_append_zero.
Qed.

End SubjectAltNameMore.

(** ** Verification: what one call does to the counters *)

Section VerificationMore.
Context `{Library}.

(** X8. One call of the verification callback either accepts, returning
    1 and leaving every counter as it was, or rejects, returning a value
    that is not positive and making exactly one of the three failure
    counters one higher, the other two staying as they were. *)
Theorem verifyCallback_counts_once (impl : ContextImpl) (ret : Z) (cert : X509)
    (stats_ : SslStats) :
  let result := verifyCallback impl ret cert stats_ in
  let error := fail_verify_error_ stats_ in
  let san := fail_verify_san_ stats_ in
  let cert_hash := fail_verify_cert_hash_ stats_ in
  (result.1 = 1 ∧ result.2 = stats_ ∧ 0 < ret)
  ∨ (result.1 ≤ 0
     ∧ (result.2 = {| fail_verify_error_ := S error; fail_verify_san_ := san;
                      fail_verify_cert_hash_ := cert_hash |}
        ∨ result.2 = {| fail_verify_error_ := error; fail_verify_san_ := S san;
                        fail_verify_cert_hash_ := cert_hash |}
        ∨ result.2 = {| fail_verify_error_ := error; fail_verify_san_ := san;
                        fail_verify_cert_hash_ := S cert_hash |})).
Proof.
  cbn zeta. unfold verifyCallback, verifyCertificate.
  destruct (ret <=? 0) eqn:Hret.
  - apply Z.leb_le in Hret. right. cbn. split; [done|]. by left.
  - apply Z.leb_gt in Hret.
    repeat case_match; cbn; first [by left | right; split; [done|]; auto].
Qed.

(** X9. A pinned hash that is not 32 bytes long matches no certificate:
    with such a hash every certificate is rejected. *)
Theorem verifyCertificateHash_length (impl : ContextImpl) (cert : X509)
    (stats_ : SslStats) :
  verify_certificate_hash_ impl ≠ [] →
  length (verify_certificate_hash_ impl) ≠ 32%nat →
  verifyCertificateHash cert (verify_certificate_hash_ impl) = false
  ∧ (verifyCertificate impl cert stats_).1 = 0.
Proof.
  intros Hset Hlen.
  assert (verifyCertificateHash cert (verify_certificate_hash_ impl) = false) as Hhash.
  { unfold verifyCertificateHash, X509_digest. apply bool_decide_eq_false.
    intros Heq. apply Hlen. rewrite <- Heq. apply SHA256_length. }
  split; [done|]. unfold verifyCertificate. rewrite Hhash.
  destruct (verify_certificate_hash_ impl); [done|]. by case_match.
Qed.

(** X10. A context constructed with no SAN list and no pinned hash
    accepts every certificate and changes no counter, and its callback
    returns 1 for every certificate whose chain the library validated, also
    when a CA certificate makes it verify peers. *)
Theorem verifyCertificate_nothing_to_check (config : ContextConfig) (impl : ContextImpl)
    (cert : X509) (stats_ : SslStats) :
  ContextImpl_ctor config = Ok impl →
  Config.verifySubjectAltNameList config = [] →
  Config.verifyCertificateHash config = "" →
  verifyCertificate impl cert stats_ = (1, stats_)
  ∧ ∀ ret, 0 < ret → verifyCallback impl ret cert stats_ = (1, stats_).
Proof.
  intros Hctor Hsan Hhash.
  apply ContextImpl_ctor_fields in Hctor as (_ & _ & _ & _ & Hlist & Hpinned & _).
  rewrite Hhash in Hpinned. injection Hpinned as Hpinned.
  assert (verifyCertificate impl cert stats_ = (1, stats_)) as Haccept.
  { unfold verifyCertificate. by rewrite Hlist, Hsan, <- Hpinned. }
  split; [done|]. intros ret Hret. unfold verifyCallback.
  by rewrite (proj2 (Z.leb_gt _ _)) by lia.
Qed.

(** X11. A loaded certificate whose expiry time cannot be compared with
    the current time counts as expiring in 0 days, which makes the days
    until the first certificate expires 0. *)
Theorem daysUntilFirstCertExpires_unreadable (impl : ContextImpl) (cert : X509) :
  ca_cert_ impl = Some cert ∨ cert_chain_ impl = Some cert →
  ASN1_TIME_diff (x509_notAfter cert) = None →
  getDaysUntilExpiration (Some cert) = 0
  ∧ daysUntilFirstCertExpires impl = 0.
Proof.
  intros Hloaded Hdiff.
  assert (getDaysUntilExpiration (Some cert) = 0) as Hzero.
  { unfold getDaysUntilExpiration. by rewrite Hdiff. }
  split; [done|].
  pose proof (getDaysUntilExpiration_int (ca_cert_ impl)) as Hca.
  pose proof (getDaysUntilExpiration_int (cert_chain_ impl)) as Hchain.
  unfold daysUntilFirstCertExpires, to_size_t, INT_MIN, INT_MAX in *.
  destruct Hloaded as [Hcert|Hcert]; rewrite Hcert, Hzero in *;
    case_match eqn:Hneg; try done.
  - apply Z.ltb_ge in Hneg. rewrite Z.mod_small by lia. lia.
  - apply Z.ltb_ge in Hneg. rewrite Z.mod_small by lia. lia.
Qed.

End VerificationMore.

Lemma verifyCertificateHash_length_witness :
  (@verifyCertificate (Sample.library true)
     (Sample.impl_with [] [48; 130; 3; 10])
     (Sample.cert_with None) Sample.stats0).1 = 0.
Proof.
  apply (@verifyCertificateHash_length (Sample.library true)
           (Sample.impl_with [] [48; 130; 3; 10])); [discriminate|].
  cbn. lia.
Defined.

Lemma verifyCertificate_nothing_to_check_witness :
  ∃ impl,
    @ContextImpl_ctor (Sample.library true) Sample.config_ca = Ok impl
    ∧ ssl_verify_mode (ctx_ impl) = SSL_VERIFY_PEER
    ∧ @verifyCertificate (Sample.library true) impl (Sample.cert_with None) Sample.stats0
      = (1, Sample.stats0).
Proof.
  eexists. split; [vm_compute; reflexivity|]. split; [reflexivity|].
  apply (@verifyCertificate_nothing_to_check (Sample.library true) Sample.config_ca);
    [vm_compute; reflexivity|reflexivity|reflexivity].
Defined.

Lemma daysUntilFirstCertExpires_unreadable_witness :
  @daysUntilFirstCertExpires (Sample.library true)
    (Sample.impl_certs (Some Sample.ca_cert) (Some Sample.unreadable_cert)) = 0.
Proof.
  apply (@daysUntilFirstCertExpires_unreadable (Sample.library true)
           (Sample.impl_certs (Some Sample.ca_cert) (Some Sample.unreadable_cert))
           Sample.unreadable_cert); [by right|reflexivity].
Defined.

(** ** Construction: when it succeeds and what it leaves *)

Section ConstructionMore.
Context `{Library}.

Lemma ContextImpl_ctor_paths (config : ContextConfig) (impl : ContextImpl) :
  ContextImpl_ctor config = Ok impl →
  ca_file_path_ impl = Config.caCertFile config
  ∧ cert_chain_file_path_ impl = Config.certChainFile config
  ∧ (cert_chain_ impl = None ↔ Config.certChainFile config = "")
  ∧ (ca_cert_ impl = None ↔ Config.caCertFile config = "").
Proof.
  unfold ContextImpl_ctor, loadCert, mbind, Result_bind.
  destruct config as [ciphers curves ca san hash chain key alpn].
  cbn [Config.cipherSuites Config.ecdhCurves Config.caCertFile
       Config.verifySubjectAltNameList Config.verifyCertificateHash
       Config.certChainFile Config.privateKeyFile Config.alpnProtocols].
  destruct (SSL_CTX_set_strict_cipher_list ciphers); [|done].
  destruct (SSL_CTX_set1_curves_list curves); [|done].
  destruct (parseAlpnProtocols alpn) as [parsed|]; cycle 1.
  { intros Hctor. repeat (case_match; try done). }
  destruct ca, chain; cbn; intros Hctor;
    repeat (case_match; try done); simplify_eq/=; repeat split; try done.
Qed.

(** X12. Construction succeeds exactly when the cipher suites and the
    curves are accepted, the CA file (if one is configured) is read and
    loaded, [Hex::decode] returns for the pinned hash (if one is configured)
    without its colons, the certificate chain file (if one is configured) is
    read and loaded together with the private key file, and the ALPN string
    is accepted. The SAN list never makes it fail, and the private key file
    is not looked at without a certificate chain file. *)
Theorem ContextImpl_ctor_succeeds_iff (config : ContextConfig) :
  (∃ impl, ContextImpl_ctor config = Ok impl)
  ↔ SSL_CTX_set_strict_cipher_list (Config.cipherSuites config) = true
    ∧ SSL_CTX_set1_curves_list (Config.ecdhCurves config) = true
    ∧ (Config.caCertFile config ≠ "" →
       is_Some (PEM_read_X509 (Config.caCertFile config))
       ∧ SSL_CTX_load_verify_locations (Config.caCertFile config) = true)
    ∧ (Config.verifyCertificateHash config ≠ "" →
       ∃ pinned,
         Hex_decode (erase_remove ":" (Config.verifyCertificateHash config)) = Ok pinned)
    ∧ (Config.certChainFile config ≠ "" →
       is_Some (PEM_read_X509 (Config.certChainFile config))
       ∧ SSL_CTX_use_certificate_chain_file (Config.certChainFile config) = true
       ∧ SSL_CTX_use_PrivateKey_file (Config.privateKeyFile config) = true)
    ∧ (∃ out, parseAlpnProtocols (Config.alpnProtocols config) = Ok out).
Proof.
  unfold ContextImpl_ctor, loadCert, mbind, Result_bind.
  destruct config as [ciphers curves ca san hash chain key alpn].
  cbn [Config.cipherSuites Config.ecdhCurves Config.caCertFile
       Config.verifySubjectAltNameList Config.verifyCertificateHash
       Config.certChainFile Config.privateKeyFile Config.alpnProtocols].
  destruct (SSL_CTX_set_strict_cipher_list ciphers); cycle 1.
  { split; [by intros [? ?]|by intros [? _]]. }
  destruct (SSL_CTX_set1_curves_list curves); cycle 1.
  { split; [by intros [? ?]|by intros (_ & ? & _)]. }
  cbn [negb].
  split.
  - intros [impl Hctor]. split; [done|]. split; [done|].
    destruct san as [|san0 san];
      cbn [vector_empty string_empty negb] in Hctor;
      (destruct ca as [|c0 ca]; cbn [string_empty negb] in Hctor;
       [split; [done|]
       |destruct (PEM_read_X509 (String c0 ca)); [|done];
        destruct (SSL_CTX_load_verify_locations _); [|done];
        split; [by eauto|]]);
      (destruct hash as [|h0 hash]; cbn [string_empty negb] in Hctor;
       [split; [done|]
       |destruct (Hex_decode (erase_remove ":" (String h0 hash))); [|done];
        split; [by eauto|]]);
      (destruct chain as [|c1 chain]; cbn [string_empty negb] in Hctor;
       [split; [done|]
       |destruct (PEM_read_X509 (String c1 chain)); [|done];
        destruct (SSL_CTX_use_certificate_chain_file _); [|done];
        destruct (SSL_CTX_use_PrivateKey_file key); [|done];
        split; [by eauto|]]);
      (destruct (parseAlpnProtocols alpn); [by eauto|done]).
  - intros (_ & _ & Hca & Hhash & Hchain & out & ->).
    destruct san as [|san0 san];
      cbn [vector_empty string_empty negb];
      (destruct ca as [|c0 ca]; cbn [string_empty negb];
       [|destruct Hca as ([cert ->] & ->); [done|]]);
      (destruct hash as [|h0 hash]; cbn [string_empty negb];
       [|destruct Hhash as [pinned ->]; [done|]]);
      (destruct chain as [|c1 chain]; cbn [string_empty negb];
       [|destruct Hchain as ([cert' ->] & -> & ->); [done|]]);
      eauto.
Qed.

(** X13. In a constructed context a SAN list or a pinned hash is never
    held without being enforced: when either is non-empty the verification
    callback is registered and a peer certificate is required. *)
Theorem ContextImpl_policy_enforced (config : ContextConfig) (impl : ContextImpl) :
  ContextImpl_ctor config = Ok impl →
  verify_subject_alt_name_list_ impl ≠ [] ∨ verify_certificate_hash_ impl ≠ [] →
  ssl_cert_verify_callback (ctx_ impl) = true
  ∧ ssl_verify_mode (ctx_ impl) = Z.lor SSL_VERIFY_PEER SSL_VERIFY_FAIL_IF_NO_PEER_CERT.
Proof.
  intros Hctor Hpolicy.
  apply ContextImpl_ctor_fields in Hctor as (Hmode & Hcb & _ & _ & Hsan & Hhash & _).
  cbn zeta in *. rewrite Hcb, Hmode. rewrite Hsan in Hpolicy. clear Hmode Hcb Hsan.
  destruct (Config.verifySubjectAltNameList config),
    (Config.verifyCertificateHash config); cbn in *; try done.
  injection Hhash as Hhash. rewrite <- Hhash in Hpolicy. by destruct Hpolicy.
Qed.

End ConstructionMore.

Lemma ContextImpl_ctor_succeeds_iff_witness :
  ∃ impl, @ContextImpl_ctor (Sample.library true) Sample.config = Ok impl.
Proof.
  apply (@ContextImpl_ctor_succeeds_iff (Sample.library true) Sample.config).
  split; [reflexivity|]. split; [reflexivity|].
  split; [intros _; split; [by eexists|reflexivity]|].
  split; [intros _; eexists; vm_compute; reflexivity|].
  split; [intros _; split; [by eexists|split; reflexivity]|].
  eexists. reflexivity.
Defined.

Lemma ContextImpl_policy_enforced_witness :
  ssl_cert_verify_callback (ctx_ Sample.impl) = true
  ∧ ssl_verify_mode (ctx_ Sample.impl)
    = Z.lor SSL_VERIFY_PEER SSL_VERIFY_FAIL_IF_NO_PEER_CERT.
Proof.
  apply (@ContextImpl_policy_enforced (Sample.library true) Sample.config Sample.impl);
    [reflexivity|left; discriminate].
Defined.

(** ** Certificate information *)

Section Information.
Context `{Library} `{Bignum}.

Lemma certificate_information_not_empty (path : string) (cert : X509) :
  certificate_information path cert ≠ "".
Proof. unfold certificate_information. discriminate. Qed.

(** X14. The information text of a constructed context is empty exactly
    when the file is not configured; otherwise it names the configured
    path, the serial number and the days until expiration of the loaded
    certificate. *)
Theorem getCaCertInformation_configured (config : ContextConfig) (impl : ContextImpl) :
  ContextImpl_ctor config = Ok impl →
  (getCaCertInformation impl = "" ↔ Config.caCertFile config = "")
  ∧ (getCertChainInformation impl = "" ↔ Config.certChainFile config = "")
  ∧ (∀ ca_cert, ca_cert_ impl = Some ca_cert →
       getCaCertInformation impl
       = "Certificate Path: " +:+ Config.caCertFile config
         +:+ ", Serial Number: " +:+ getSerialNumber ca_cert
         +:+ ", Days until Expiration: "
         +:+ pretty (getDaysUntilExpiration (Some ca_cert)))
  ∧ (∀ cert_chain, cert_chain_ impl = Some cert_chain →
       getCertChainInformation impl
       = "Certificate Path: " +:+ Config.certChainFile config
         +:+ ", Serial Number: " +:+ getSerialNumber cert_chain
         +:+ ", Days until Expiration: "
         +:+ pretty (getDaysUntilExpiration (Some cert_chain))).
Proof.
  intros Hctor.
  apply ContextImpl_ctor_paths in Hctor as (Hca_path & Hchain_path & Hchain & Hca).
  unfold getCaCertInformation, getCertChainInformation.
  rewrite <- Hca, <- Hchain, Hca_path, Hchain_path.
  split; [|split; [|split]].
  - destruct (ca_cert_ impl); [|done].
    split; [intros Hempty|done]. by apply certificate_information_not_empty in Hempty.
  - destruct (cert_chain_ impl); [|done].
    split; [intros Hempty|done]. by apply certificate_information_not_empty in Hempty.
  - by intros ca_cert ->.
  - by intros cert_chain ->.
Qed.

End Information.

Lemma getCaCertInformation_configured_witness :
  @getCaCertInformation (Sample.library true) Sample.bignum Sample.impl
  = "Certificate Path: ca.pem, Serial Number: 01, Days until Expiration: 365".
Proof.
  destruct (@getCaCertInformation_configured (Sample.library true) Sample.bignum
              Sample.config Sample.impl eq_refl) as (_ & _ & Hca & _).
  rewrite (Hca Sample.ca_cert eq_refl). reflexivity.
Defined.

(** ** The server constructor *)

Section ServerMore.
Context `{Library}.

Lemma ServerContextImpl_ctor_callbacks (config : ServerContextConfig)
    (srv : ServerContextImpl) :
  ServerContextImpl_ctor config = Ok srv →
  ∃ impl,
    ContextImpl_ctor (Config.base_config config) = Ok impl
    ∧ ssl_alpn_select_cb (ctx_ (base srv)) = negb (vector_empty (parsed_alpn_protocols_ impl))
    ∧ parsed_alpn_protocols_ (base srv) = parsed_alpn_protocols_ impl
    ∧ parseAlpnProtocols (Config.altAlpnProtocols config)
      = Ok (parsed_alt_alpn_protocols_ srv)
    ∧ ssl_cert_verify_callback (ctx_ (base srv)) = ssl_cert_verify_callback (ctx_ impl)
    ∧ (Config.caCertFile (Config.base_config config) = "" →
       ssl_client_CA_list (ctx_ (base srv)) = None).
Proof.
  unfold ServerContextImpl_ctor, mbind, Result_bind.
  destruct (ContextImpl_ctor (Config.base_config config)) as [impl|]; [|done].
  intros Hctor. exists impl.
  destruct (Config.caCertFile (Config.base_config config)) eqn:Hca;
    cbn [string_empty negb] in Hctor;
    repeat (case_match; try done); simplify_eq/=; done.
Qed.

Lemma parseSessionTicketKeys_Ok (blobs : list (list uint8_t))
    (keys : list SessionTicketKey) (installed : bool) :
  parseSessionTicketKeys blobs = Ok (keys, installed) →
  keys = copy_SessionTicketKey <$> blobs
  ∧ installed = negb (vector_empty blobs)
  ∧ Forall (λ key, length (name key) = 16%nat ∧ length (hmac_key key) = 32%nat
                   ∧ length (aes_key key) = 32%nat) keys.
Proof.
  rewrite parseSessionTicketKeys_spec.
  destruct (list_find _ blobs) as [[i bad]|] eqn:Hfind; [done|].
  intros [= <- <-]. split; [done|]. split; [done|].
  apply list_find_None in Hfind. apply Forall_fmap.
  eapply Forall_impl; [exact Hfind|]. intros src_key Hlen. cbn in *.
  assert (length src_key = sizeof_SessionTicketKey) as Hsize.
  { destruct (decide (length src_key = sizeof_SessionTicketKey)); [done|].
    by destruct Hlen. }
  pose proof (copy_SessionTicketKey_split src_key Hsize) as Hsplit.
  cbn zeta in Hsplit. tauto.
Qed.

(** X15. A constructed server installs the ALPN selection callback
    exactly when its primary ALPN string is not empty, whatever the
    alternate string is, and the session ticket callback exactly when ticket
    keys are configured; it then holds one key per configured blob, in
    order, each with a 16-byte name and two 32-byte keys. *)
Theorem ServerContextImpl_callbacks (config : ServerContextConfig)
    (srv : ServerContextImpl) :
  ServerContextImpl_ctor config = Ok srv →
  ssl_alpn_select_cb (ctx_ (base srv))
  = negb (string_empty (Config.alpnProtocols (Config.base_config config)))
  ∧ ssl_tlsext_ticket_key_cb (ctx_ (base srv))
    = negb (vector_empty (Config.sessionTicketKeys config))
  ∧ session_ticket_keys_ srv = copy_SessionTicketKey <$> Config.sessionTicketKeys config
  ∧ Forall (λ key, length (name key) = 16%nat ∧ length (hmac_key key) = 32%nat
                   ∧ length (aes_key key) = 32%nat) (session_ticket_keys_ srv).
Proof.
  intros Hctor.
  pose proof Hctor as (impl & Hbase & Hcb & _)%ServerContextImpl_ctor_callbacks.
  apply ServerContextImpl_ctor_fields in Hctor as (impl' & Hbase' & _ & _ & _ & _ & Hkeys).
  rewrite Hbase in Hbase'. injection Hbase' as <-.
  apply ContextImpl_ctor_fields in Hbase as (_ & _ & _ & _ & _ & _ & Halpn).
  split.
  { rewrite Hcb. f_equal.
    pose proof (parseAlpnProtocols_nil _ _ Halpn) as Hempty.
    destruct (parsed_alpn_protocols_ impl) as [|b out].
    - by rewrite (proj1 Hempty eq_refl).
    - destruct (Config.alpnProtocols (Config.base_config config)); [|done].
      by destruct (proj2 Hempty eq_refl). }
  by apply parseSessionTicketKeys_Ok in Hkeys as (-> & -> & Hall).
Qed.

(** X16. Without a CA file a server ignores the request to require a
    client certificate: it keeps the verification mode of the base
    constructor and installs no client CA list, so that with no SAN list and
    no pinned hash either nothing is verified. *)
Theorem ServerContextImpl_no_ca (config : ServerContextConfig) (srv : ServerContextImpl) :
  ServerContextImpl_ctor config = Ok srv →
  Config.caCertFile (Config.base_config config) = "" →
  ssl_client_CA_list (ctx_ (base srv)) = None
  ∧ (∃ impl, ContextImpl_ctor (Config.base_config config) = Ok impl
             ∧ ssl_verify_mode (ctx_ (base srv)) = ssl_verify_mode (ctx_ impl))
  ∧ (Config.verifySubjectAltNameList (Config.base_config config) = [] →
     Config.verifyCertificateHash (Config.base_config config) = "" →
     ssl_verify_mode (ctx_ (base srv)) = SSL_VERIFY_NONE
     ∧ ssl_cert_verify_callback (ctx_ (base srv)) = false).
Proof.
  intros Hctor Hca.
  pose proof Hctor as (impl & Hbase & _ & _ & _ & Hcb & Hlist)%ServerContextImpl_ctor_callbacks.
  apply ServerContextImpl_verify_mode in Hctor as (impl' & Hbase' & Hmode).
  rewrite Hbase in Hbase'. injection Hbase' as <-.
  rewrite Hca in Hmode. cbn [string_empty negb andb] in Hmode.
  split; [by apply Hlist|]. split; [by eauto|].
  intros Hsan Hhash. rewrite Hmode, Hcb.
  apply ContextImpl_ctor_fields in Hbase as (-> & -> & _).
  by rewrite Hca, Hsan, Hhash.
Qed.

End ServerMore.

Lemma ServerContextImpl_callbacks_witness :
  ∃ srv, @ServerContextImpl_ctor (Sample.library true)
           (Sample.server_config [Sample.blob 1 2 3]) = Ok srv
    ∧ ssl_alpn_select_cb (ctx_ (base srv)) = true
    ∧ ssl_tlsext_ticket_key_cb (ctx_ (base srv)) = true.
Proof.
  eexists. split; [vm_compute; reflexivity|].
  destruct (@ServerContextImpl_callbacks (Sample.library true)
              (Sample.server_config [Sample.blob 1 2 3]) _ eq_refl)
    as (Halpn & Hticket & _).
  split; [exact Halpn|exact Hticket].
Defined.

Lemma ServerContextImpl_no_ca_witness :
  ∃ srv, @ServerContextImpl_ctor (Sample.library true)
           {| Config.base_config := Sample.config_none;
              Config.requireClientCertificate := true;
              Config.altAlpnProtocols := "";
              Config.sessionTicketKeys := [] |} = Ok srv
    ∧ ssl_verify_mode (ctx_ (base srv)) = SSL_VERIFY_NONE
    ∧ ssl_cert_verify_callback (ctx_ (base srv)) = false.
Proof.
  eexists. split; [vm_compute; reflexivity|].
  eapply (@ServerContextImpl_no_ca (Sample.library true)
            {| Config.base_config := Sample.config_none;
               Config.requireClientCertificate := true;
               Config.altAlpnProtocols := "";
               Config.sessionTicketKeys := [] |});
    [vm_compute; reflexivity|reflexivity|reflexivity|reflexivity].
Defined.

(** ** Session tickets: issuing, resuming, rotating *)

Section TicketsMore.
Context `{Library}.

Lemma name_equal_own (key : SessionTicketKey) :
  (length (name key) ≤ SSL_TICKET_KEY_NAME_LEN)%nat →
  name_equal key (take SSL_TICKET_KEY_NAME_LEN (name key)) = true.
Proof.
  intros Hlen. unfold name_equal. apply bool_decide_eq_true.
  by rewrite (take_ge (name key) SSL_TICKET_KEY_NAME_LEN), firstn_all by done.
Qed.

Lemma sessionTicketProcess_encrypt_ok (impl : ServerContextImpl) (args : TicketArgs)
    (rand : list uint8_t) (K0 : SessionTicketKey) (rest : list SessionTicketKey) :
  session_ticket_keys_ impl = K0 :: rest →
  EVP_EncryptInit_ex (aes_key K0) rand = true →
  HMAC_Init_ex (hmac_key K0) = true →
  sessionTicketProcess impl args rand 1
  = (1, {| key_name := take SSL_TICKET_KEY_NAME_LEN (name K0);
           iv := rand;
           ctx := Some {| cipher_encrypt := true; cipher_key := aes_key K0;
                          cipher_iv := rand |};
           hmac_ctx := Some (hmac_key K0) |}).
Proof.
  intros Hkeys Hcipher Hhmac. unfold sessionTicketProcess. rewrite Hkeys.
  cbn [Z.eqb Pos.eqb iv key_name ctx hmac_ctx]. by rewrite Hcipher, Hhmac.
Qed.

(** X17. A ticket issued by a server is resumed by the same server
    without renewal: when the initialisations succeed, encrypt returns 1 and
    decrypt of a ticket with the issued name and IV returns 1, with the
    cipher and the HMAC set up from the first key, as they were for
    encrypt. *)
Theorem sessionTicketProcess_round_trip (impl : ServerContextImpl) (args : TicketArgs)
    (rand : list uint8_t) (K0 : SessionTicketKey) (rest : list SessionTicketKey) :
  session_ticket_keys_ impl = K0 :: rest →
  (length (name K0) ≤ SSL_TICKET_KEY_NAME_LEN)%nat →
  EVP_EncryptInit_ex (aes_key K0) rand = true →
  EVP_DecryptInit_ex (aes_key K0) rand = true →
  HMAC_Init_ex (hmac_key K0) = true →
  let issued := sessionTicketProcess impl args rand 1 in
  issued.1 = 1
  ∧ ∀ ctx0 hmac0 rand' encrypt, encrypt ≠ 1 →
      sessionTicketProcess impl
        {| key_name := key_name issued.2; iv := iv issued.2;
           ctx := ctx0; hmac_ctx := hmac0 |} rand' encrypt
      = (1, {| key_name := key_name issued.2;
               iv := rand;
               ctx := Some {| cipher_encrypt := false; cipher_key := aes_key K0;
                              cipher_iv := rand |};
               hmac_ctx := Some (hmac_key K0) |}).
Proof.
  intros Hkeys Hlen Hencrypt Hdecrypt Hhmac. cbn zeta.
  rewrite (sessionTicketProcess_encrypt_ok _ _ _ K0 rest) by done.
  split; [done|]. intros ctx0 hmac0 rand' encrypt Hmode.
  unfold sessionTicketProcess. rewrite (proj2 (Z.eqb_neq _ _)) by done.
  rewrite Hkeys. cbn [decrypt_loop key_name iv snd].
  rewrite name_equal_own by done. unfold decrypt_with.
  cbn [key_name iv ctx hmac_ctx]. by rewrite Hhmac, Hdecrypt.
Qed.

(** X18. Rotation: when a second server holds a new key in front of the
    keys of the first, and the new key has another name, a ticket issued by
    the first server is accepted by the second with the request to renew
    it (2), the cipher and the HMAC set up from the key that issued it. *)
Theorem sessionTicketProcess_rotation (old new : ServerContextImpl) (args : TicketArgs)
    (rand : list uint8_t) (Knew K0 : SessionTicketKey) (rest : list SessionTicketKey) :
  session_ticket_keys_ old = K0 :: rest →
  session_ticket_keys_ new = Knew :: K0 :: rest →
  (length (name K0) ≤ SSL_TICKET_KEY_NAME_LEN)%nat →
  name_equal Knew (take SSL_TICKET_KEY_NAME_LEN (name K0)) = false →
  EVP_EncryptInit_ex (aes_key K0) rand = true →
  EVP_DecryptInit_ex (aes_key K0) rand = true →
  HMAC_Init_ex (hmac_key K0) = true →
  let issued := sessionTicketProcess old args rand 1 in
  issued.1 = 1
  ∧ ∀ ctx0 hmac0 rand' encrypt, encrypt ≠ 1 →
      sessionTicketProcess new
        {| key_name := key_name issued.2; iv := iv issued.2;
           ctx := ctx0; hmac_ctx := hmac0 |} rand' encrypt
      = (2, {| key_name := key_name issued.2;
               iv := rand;
               ctx := Some {| cipher_encrypt := false; cipher_key := aes_key K0;
                              cipher_iv := rand |};
               hmac_ctx := Some (hmac_key K0) |}).
Proof.
  intros Hold Hnew Hlen Hother Hencrypt Hdecrypt Hhmac. cbn zeta.
  rewrite (sessionTicketProcess_encrypt_ok _ _ _ K0 rest) by done.
  split; [done|]. intros ctx0 hmac0 rand' encrypt Hmode.
  unfold sessionTicketProcess. rewrite (proj2 (Z.eqb_neq _ _)) by done.
  rewrite Hnew. cbn [decrypt_loop key_name iv snd].
  rewrite Hother, name_equal_own by done. unfold decrypt_with.
  cbn [key_name iv ctx hmac_ctx]. by rewrite Hhmac, Hdecrypt.
Qed.

Lemma decrypt_with_shape (key : SessionTicketKey) (is_enc_key : bool) (args : TicketArgs) :
  let result := decrypt_with key is_enc_key args in
  (result.1 = -1 ∨ result.1 = 1 ∨ result.1 = 2)
  ∧ key_name result.2 = key_name args ∧ iv result.2 = iv args
  ∧ (0 < result.1 → is_Some (ctx result.2) ∧ is_Some (hmac_ctx result.2)).
Proof.
  cbn zeta. unfold decrypt_with. cbn [key_name iv ctx hmac_ctx].
  destruct (HMAC_Init_ex _), (EVP_DecryptInit_ex _ _), is_enc_key; cbn;
    repeat split; eauto; lia.
Qed.

Lemma decrypt_loop_shape (keys : list SessionTicketKey) (is_enc_key : bool)
    (args : TicketArgs) :
  let result := decrypt_loop keys is_enc_key args in
  (result.1 = -1 ∨ result.1 = 0 ∨ result.1 = 1 ∨ result.1 = 2)
  ∧ key_name result.2 = key_name args ∧ iv result.2 = iv args
  ∧ (result.1 = 0 → result.2 = args)
  ∧ (0 < result.1 → is_Some (ctx result.2) ∧ is_Some (hmac_ctx result.2)).
Proof.
  cbn zeta. revert is_enc_key.
  induction keys as [|key keys IH]; intros is_enc_key; cbn [decrypt_loop].
  - cbn. repeat split; auto; lia.
  - destruct (name_equal key (key_name args)); [|apply IH].
    pose proof (decrypt_with_shape key is_enc_key args) as Hshape. cbn zeta in Hshape.
    destruct Hshape as (Hcode & Hname & Hiv & Hctx).
    repeat split; try done; try (by apply Hctx); [|lia]. tauto.
Qed.

(** X19. The callback returns -1, 0, 1 or 2, and for encrypt only -1 or
    1. Decrypt never changes the name and the IV of the ticket, leaves
    everything untouched when it returns 0, and has initialised both the
    cipher and the HMAC whenever it returns 1 or 2. *)
Theorem sessionTicketProcess_shape (impl : ServerContextImpl) (args : TicketArgs)
    (rand : list uint8_t) (encrypt : Z) :
  let result := sessionTicketProcess impl args rand encrypt in
  (result.1 = -1 ∨ result.1 = 0 ∨ result.1 = 1 ∨ result.1 = 2)
  ∧ (encrypt = 1 → result.1 = -1 ∨ result.1 = 1)
  ∧ (encrypt ≠ 1 → key_name result.2 = key_name args ∧ iv result.2 = iv args)
  ∧ (result.1 = 0 → result.2 = args)
  ∧ (0 < result.1 → is_Some (ctx result.2) ∧ is_Some (hmac_ctx result.2)).
Proof.
  cbn zeta. unfold sessionTicketProcess.
  destruct (encrypt =? 1) eqn:Hmode.
  - apply Z.eqb_eq in Hmode as ->.
    destruct (session_ticket_keys_ impl) as [|key keys].
    + cbn. repeat split; auto; lia.
    + cbn [key_name iv ctx hmac_ctx].
      destruct (EVP_EncryptInit_ex _ _), (HMAC_Init_ex _); cbn;
        repeat split; eauto; lia.
  - apply Z.eqb_neq in Hmode.
    pose proof (decrypt_loop_shape (session_ticket_keys_ impl) true args) as Hshape.
    cbn zeta in Hshape. destruct Hshape as (Hcode & Hname & Hiv & Hzero & Hctx).
    repeat split; try done; by apply Hctx.
Qed.

End TicketsMore.

Lemma sessionTicketProcess_round_trip_witness :
  (@sessionTicketProcess (Sample.library true)
     (Sample.server [Sample.blob 1 2 3; Sample.blob 7 4 5]) (Sample.ticket 0)
     (replicate 16 5) 1).1 = 1.
Proof.
  eapply (@sessionTicketProcess_round_trip (Sample.library true)
            (Sample.server [Sample.blob 1 2 3; Sample.blob 7 4 5]));
    [reflexivity|vm_compute; lia|reflexivity|reflexivity|reflexivity].
Defined.

Lemma sessionTicketProcess_rotation_witness :
  @sessionTicketProcess (Sample.library true)
    (Sample.server [Sample.blob 8 6 6; Sample.blob 1 2 3; Sample.blob 7 4 5])
    {| key_name := replicate 16 1; iv := replicate 16 5; ctx := None; hmac_ctx := None |}
    [] 0
  = (2, {| key_name := replicate 16 1;
           iv := replicate 16 5;
           ctx := Some {| cipher_encrypt := false; cipher_key := replicate 32 3;
                          cipher_iv := replicate 16 5 |};
           hmac_ctx := Some (replicate 32 2) |}).
Proof.
  destruct (@sessionTicketProcess_rotation (Sample.library true)
              (Sample.server [Sample.blob 1 2 3; Sample.blob 7 4 5])
              (Sample.server [Sample.blob 8 6 6; Sample.blob 1 2 3; Sample.blob 7 4 5])
              (Sample.ticket 0) (replicate 16 5)
              (copy_SessionTicketKey (Sample.blob 8 6 6))
              (copy_SessionTicketKey (Sample.blob 1 2 3))
              [copy_SessionTicketKey (Sample.blob 7 4 5)]
              eq_refl eq_refl ltac:(vm_compute; lia) eq_refl eq_refl eq_refl eq_refl)
    as [_ Hresume].
  apply (Hresume None None [] 0). discriminate.
Defined.

(** ** Handshake statistics *)

Section Handshakes.

Lemma counter_inc_lookup (name other : string) (scope : gmap string nat) :
  default 0%nat (counter_inc name scope !! other)
  = (default 0%nat (scope !! other) + if String.eqb name other then 1 else 0)%nat.
Proof.
  unfold counter_inc. destruct (String.eqb_spec name other) as [->|Hne].
  - rewrite lookup_insert_eq. cbn. lia.
  - rewrite lookup_insert_ne by done. lia.
Qed.

Lemma cipher_counter_eqb (cipher other : string) :
  String.eqb ("ssl.ciphers." +:+ cipher) ("ssl.ciphers." +:+ other)
  = String.eqb cipher other.
Proof.
  destruct (String.eqb_spec cipher other) as [->|Hne].
  - apply String.eqb_refl.
  - apply String.eqb_neq. intros Heq. by apply (inj (String.append _)) in Heq.
Qed.

Lemma counter_inc_other (name other : string) (scope : gmap string nat) :
  name ≠ other → counter_inc name scope !! other = scope !! other.
Proof. intros Hne. unfold counter_inc. by rewrite lookup_insert_ne. Qed.

(** What one call adds to the counter [name]. *)
Lemma logHandshake_lookup (ssl : SSL) (scope_ : gmap string nat) (name : string) :
  default 0%nat (logHandshake ssl scope_ !! name)
  = (default 0%nat (scope_ !! name)
     + (if String.eqb "ssl.handshake" name then 1 else 0)
     + (if ssl_session_reused ssl && String.eqb "ssl.session_reused" name
        then 1 else 0)
     + (if String.eqb ("ssl.ciphers." +:+ ssl_cipher_name ssl) name then 1 else 0)
     + (if bool_decide (ssl_peer_certificate ssl = None)
           && String.eqb "ssl.no_certificate" name
        then 1 else 0))%nat.
Proof.
  unfold logHandshake, generateStats. cbn zeta. cbn [handshake_ session_reused_ no_certificate_].
  change ("ssl." +:+ "handshake") with "ssl.handshake".
  change ("ssl." +:+ "session_reused") with "ssl.session_reused".
  change ("ssl." +:+ "no_certificate") with "ssl.no_certificate".
  destruct (ssl_session_reused ssl), (ssl_peer_certificate ssl);
    cbn [andb bool_decide]; rewrite ?counter_inc_lookup;
    rewrite ?bool_decide_eq_true_2, ?bool_decide_eq_false_2 by done;
    cbn [andb]; lia.
Qed.

Lemma logHandshake_unchanged (ssl : SSL) (scope_ : gmap string nat) (name : string) :
  name ≠ "ssl.handshake" → name ≠ "ssl.session_reused" →
  name ≠ "ssl.no_certificate" → (∀ cipher, name ≠ "ssl.ciphers." +:+ cipher) →
  logHandshake ssl scope_ !! name = scope_ !! name.
Proof.
  intros Hh Hr Hn Hc. unfold logHandshake, generateStats.
  cbn zeta. cbn [handshake_ session_reused_ no_certificate_].
  change ("ssl." +:+ "handshake") with "ssl.handshake".
  change ("ssl." +:+ "session_reused") with "ssl.session_reused".
  change ("ssl." +:+ "no_certificate") with "ssl.no_certificate".
  destruct (ssl_session_reused ssl), (ssl_peer_certificate ssl);
    rewrite ?counter_inc_other; done.
Qed.

Lemma cipher_counter_not_stat (cipher : string) :
  String.eqb "ssl.handshake" ("ssl.ciphers." +:+ cipher) = false
  ∧ String.eqb "ssl.session_reused" ("ssl.ciphers." +:+ cipher) = false
  ∧ String.eqb "ssl.no_certificate" ("ssl.ciphers." +:+ cipher) = false.
Proof. repeat split; apply String.eqb_neq; discriminate. Qed.

(** X20. Logging a sequence of handshakes adds to the counter
    [ssl.handshake] of the scope their number, to [ssl.session_reused] the
    number of resumed ones, to [ssl.no_certificate] the number of those
    without a peer certificate, and to the counter [ssl.ciphers.<name>] of
    every cipher the number of handshakes that negotiated it, whatever the
    cipher names are; no other counter of the scope changes. *)
Theorem logHandshake_counts (ssls : list SSL) (scope_ : gmap string nat) :
  let result := fold_left (λ scope ssl, logHandshake ssl scope) ssls scope_ in
  let value (scope : gmap string nat) (name : string) := default 0%nat (scope !! name) in
  value result "ssl.handshake" = (value scope_ "ssl.handshake" + length ssls)%nat
  ∧ value result "ssl.session_reused"
    = (value scope_ "ssl.session_reused"
       + length (List.filter ssl_session_reused ssls))%nat
  ∧ value result "ssl.no_certificate"
    = (value scope_ "ssl.no_certificate"
       + length (List.filter (λ ssl, bool_decide (ssl_peer_certificate ssl = None)) ssls))%nat
  ∧ (∀ cipher,
       value result ("ssl.ciphers." +:+ cipher)
       = (value scope_ ("ssl.ciphers." +:+ cipher)
          + length (List.filter (λ ssl, String.eqb (ssl_cipher_name ssl) cipher) ssls))%nat)
  ∧ (∀ name,
       name ≠ "ssl.handshake" → name ≠ "ssl.session_reused" →
       name ≠ "ssl.no_certificate" → (∀ cipher, name ≠ "ssl.ciphers." +:+ cipher) →
       result !! name = scope_ !! name).
Proof.
  cbn zeta. revert scope_.
  induction ssls as [|ssl ssls IH]; intros scope_.
  - cbn. repeat split; first [lia|done].
  - cbn [fold_left].
    destruct (IH (logHandshake ssl scope_)) as (Hh & Hr & Hn & Hc & Ho).
    rewrite Hh, Hr, Hn. cbn [List.filter length].
    split; [|split; [|split; [|split]]].
    + rewrite logHandshake_lookup.
      destruct (cipher_counter_not_stat (ssl_cipher_name ssl)) as (Hne & _ & _).
      rewrite String.eqb_sym in Hne. rewrite Hne. cbn. rewrite !andb_false_r. lia.
    + rewrite logHandshake_lookup.
      destruct (cipher_counter_not_stat (ssl_cipher_name ssl)) as (_ & Hne & _).
      rewrite String.eqb_sym in Hne. rewrite Hne. cbn. rewrite !andb_false_r.
      destruct (ssl_session_reused ssl); cbn; lia.
    + rewrite logHandshake_lookup.
      destruct (cipher_counter_not_stat (ssl_cipher_name ssl)) as (_ & _ & Hne).
      rewrite String.eqb_sym in Hne. rewrite Hne. cbn. rewrite !andb_false_r.
      destruct (bool_decide (ssl_peer_certificate ssl = None)); cbn; lia.
    + intros cipher. rewrite Hc, logHandshake_lookup, cipher_counter_eqb.
      destruct (cipher_counter_not_stat cipher) as (-> & -> & ->).
      rewrite !andb_false_r.
      destruct (String.eqb (ssl_cipher_name ssl) cipher); cbn; lia.
    + intros name Hh' Hr' Hn' Hc'. rewrite Ho by done.
      by apply logHandshake_unchanged.
Qed.

End Handshakes.

(** ** ALPN selection *)

Section AlpnSelect.
Context `{Library} `{Negotiation}.

(** X21. A constructed server selects against the encoding of its
    alternate ALPN string when that string is not empty and the runtime
    feature is on, and against the encoding of its primary string
    otherwise; without an alternate string the feature changes nothing. The
    callback answers OK when the library negotiated a protocol and NOACK
    otherwise, never a fatal alert. *)
Theorem alpnSelectCallback_list (config : ServerContextConfig) (srv : ServerContextImpl)
    (alt_alpn : bool) (in_ : list uint8_t) :
  ServerContextImpl_ctor config = Ok srv →
  let chosen :=
    if negb (string_empty (Config.altAlpnProtocols config)) && alt_alpn
    then Config.altAlpnProtocols config
    else Config.alpnProtocols (Config.base_config config) in
  (∃ alpn_data,
     parseAlpnProtocols chosen = Ok alpn_data
     ∧ alpnSelectCallback srv alt_alpn in_
       = (if (SSL_select_next_proto alpn_data in_).1 =? OPENSSL_NPN_NEGOTIATED
          then SSL_TLSEXT_ERR_OK else SSL_TLSEXT_ERR_NOACK,
          (SSL_select_next_proto alpn_data in_).2))
  ∧ (Config.altAlpnProtocols config = "" →
     alpnSelectCallback srv true in_ = alpnSelectCallback srv false in_).
Proof.
  intros Hctor. cbn zeta.
  apply ServerContextImpl_ctor_callbacks in Hctor
    as (impl & Hbase & _ & Hprimary & Halt & _).
  apply ContextImpl_ctor_fields in Hbase as (_ & _ & _ & _ & _ & _ & Halpn).
  rewrite <- Hprimary in Halpn.
  pose proof (parseAlpnProtocols_nil _ _ Halt) as Hnil.
  assert (vector_empty (parsed_alt_alpn_protocols_ srv)
          = string_empty (Config.altAlpnProtocols config)) as Hempty.
  { destruct (parsed_alt_alpn_protocols_ srv) as [|b alt].
    - by rewrite (proj1 Hnil eq_refl).
    - destruct (Config.altAlpnProtocols config); [|done].
      by destruct (proj2 Hnil eq_refl). }
  unfold alpnSelectCallback. rewrite Hempty. split.
  - destruct (negb (string_empty (Config.altAlpnProtocols config)) && alt_alpn);
      eexists; (split; [eassumption|]);
      destruct (SSL_select_next_proto _ in_) as [rc out]; cbn [fst snd];
      by destruct (rc =? OPENSSL_NPN_NEGOTIATED).
  - intros ->. done.
Qed.

End AlpnSelect.

Lemma logHandshake_counts_witness :
  let result :=
    fold_left (λ scope ssl, logHandshake ssl scope)
      [Sample.connection false "AES128-SHA" None;
       Sample.connection true "AES128-SHA" (Some Sample.ca_cert);
       Sample.connection false "AES256-SHA" None]
      (∅ : gmap string nat) in
  default 0%nat (result !! "ssl.handshake") = 3%nat
  ∧ default 0%nat (result !! "ssl.session_reused") = 1%nat
  ∧ default 0%nat (result !! "ssl.no_certificate") = 2%nat
  ∧ default 0%nat (result !! "ssl.ciphers.AES128-SHA") = 2%nat
  ∧ result !! "ssl.fail_verify_san" = None.
Proof.
  cbn zeta.
  destruct (logHandshake_counts
              [Sample.connection false "AES128-SHA" None;
               Sample.connection true "AES128-SHA" (Some Sample.ca_cert);
               Sample.connection false "AES256-SHA" None] ∅)
    as (Hh & Hr & Hn & Hc & Ho).
  split; [exact Hh|]. split; [exact Hr|]. split; [exact Hn|].
  split; [exact (Hc "AES128-SHA")|].
  rewrite Ho; [reflexivity|discriminate..].
Defined.

Lemma alpnSelectCallback_list_witness :
  ∃ srv, @ServerContextImpl_ctor (Sample.library true)
           (Sample.server_config []) = Ok srv
    ∧ @alpnSelectCallback Sample.negotiation srv true [2; 104; 50]
      = (SSL_TLSEXT_ERR_OK, [104; 50]).
Proof.
  eexists. split; [vm_compute; reflexivity|].
  destruct (@alpnSelectCallback_list (Sample.library true) Sample.negotiation
              (Sample.server_config []) _ true [2; 104; 50] eq_refl)
    as [(alpn_data & Hdata & Hselect) _].
  etrans; [exact Hselect|]. injection Hdata as <-. reflexivity.
Defined.
